(** * Recipe Explorer backend: a shallow embedding of the request handlers

    The development follows [src/backend/src/api]:
    - [models.py]: the tables [users], [recipes] and the join table
      [favorites] (rows kept in insertion order, the order of SQLite's rowid);
    - [schemas.py]: the request and response schemas;
    - [main.py]: the handlers, each a function of the persisted state.

    Text is a [string] of 8-bit characters (the code points 0 to 255),
    identifiers are integers ([Z]), timestamps are integers supplied by the
    caller of a creating handler (the value [datetime.utcnow] yields at that
    moment), and the password hashing library is an interface
    ([CryptContext]) whose salt is an explicit argument.  An exception that
    no handler catches is an outcome of its own ([Unhandled], status 500);
    the session is then closed without a commit, so the persisted state is
    the one before the request. *)

From Stdlib Require Import ZArith List String Ascii Bool Lia.
From Stdlib Require Import Permutation Sorting.Sorted.
Import ListNotations.

Local Open Scope string_scope.
Local Open Scope Z_scope.

(** ** models.py *)

Module User.
Record t : Type := mk
  { id : Z;
    username : string;
    hashed_password : string;
    created_at : Z }.
End User.

Module Recipe.
Record t : Type := mk
  { id : Z;
    title : string;
    description : option string;
    ingredients : option string;
    instructions : option string;
    image_url : option string;
    category : option string;
    created_at : Z }.
End Recipe.

(** The persisted state: the three tables. [favorites] has two integer
    columns [(user_id, recipe_id)] and no key, as [favorites_table]. *)
Record Database : Type := mkDatabase
  { users : list User.t;
    recipes : list Recipe.t;
    favorites : list (Z * Z) }.

(** [init_db] on a fresh file: the tables exist and are empty. *)
Definition init_db : Database :=
  {| users := []; recipes := []; favorites := [] |}.

(** ** schemas.py *)

Record RecipeCreate : Type := mkRecipeCreate
  { rc_title : string;
    rc_description : option string;
    rc_ingredients : option string;
    rc_instructions : option string;
    rc_image_url : option string;
    rc_category : option string }.

Record RecipeRead : Type := mkRecipeRead
  { rr_title : string;
    rr_description : option string;
    rr_ingredients : option string;
    rr_instructions : option string;
    rr_image_url : option string;
    rr_category : option string;
    rr_id : Z }.

Record UserCreate : Type := mkUserCreate
  { uc_username : string;
    uc_password : string }.

Record UserRead : Type := mkUserRead
  { ur_username : string;
    ur_id : Z }.

Record Token : Type := mkToken
  { access_token : string;
    token_type : string }.

(** [response_model=RecipeRead] with [orm_mode]: the row's attributes that
    the schema names. *)
Definition RecipeRead_from_orm (r : Recipe.t) : RecipeRead :=
  {| rr_title := Recipe.title r;
     rr_description := Recipe.description r;
     rr_ingredients := Recipe.ingredients r;
     rr_instructions := Recipe.instructions r;
     rr_image_url := Recipe.image_url r;
     rr_category := Recipe.category r;
     rr_id := Recipe.id r |}.

(** [response_model=UserRead] with [orm_mode]. *)
Definition UserRead_from_orm (u : User.t) : UserRead :=
  {| ur_username := User.username u;
     ur_id := User.id u |}.

(** ** What a handler answers *)

(** A handler either returns a body, sent with the status code of its route
    (200 unless the decorator says otherwise), or raises [HTTPException], or
    lets an exception of the layers below escape, which the framework
    answers with status 500. *)
Inductive Response (A : Type) : Type :=
| Ok (status_code : Z) (body : A)
| HTTPException (status_code : Z) (detail : string)
| Unhandled (exception : string).

Arguments Ok {A} status_code body.
Arguments HTTPException {A} status_code detail.
Arguments Unhandled {A} exception.

Definition status_code_of {A} (r : Response A) : Z :=
  match r with
  | Ok c _ => c
  | HTTPException c _ => c
  | Unhandled _ => 500
  end.

Definition is_error {A} (r : Response A) : bool :=
  match r with
  | Ok _ _ => false
  | HTTPException _ _ => true
  | Unhandled _ => true
  end.

(** The JSON object [{"message": m}]. *)
Record Message : Type := mkMessage { message : string }.

(** ** The query layer *)

(** [db.query(T).filter(p).first()]: the first row, in rowid order, that
    satisfies [p]. *)
Definition first {A} (p : A -> bool) (rows : list A) : option A :=
  find p rows.

(** The integers SQLite stores: the signed 64-bit range. *)
Definition in_int64 (i : Z) : bool :=
  (- 2 ^ 63 <=? i) && (i <=? 2 ^ 63 - 1).

(** The outcome of a lookup by primary key. *)
Inductive Lookup (A : Type) : Type :=
| Found (row : A)
| Missing
| Overflow.

Arguments Found {A} row.
Arguments Missing {A}.
Arguments Overflow {A}.

(** [db.query(T).filter(T.id == i).first()].  The driver refuses to bind an
    integer outside the signed 64-bit range and raises [OverflowError].  The
    keys a table holds are within the range, so an id outside it matches no
    row: the refusal is the outcome of the lookup that finds no row for such
    an id. *)
Definition first_by_id {A} (key : A -> Z) (i : Z) (rows : list A) : Lookup A :=
  match first (fun row => key row =? i) rows with
  | Some row => Found row
  | None => if in_int64 i then Missing else Overflow
  end.

(** SQLite's choice of the integer primary key of an inserted row: 1 in an
    empty table, otherwise one more than the largest key in use (as long as
    that is within the signed 64-bit range). *)
Definition next_id (ids : list Z) : Z :=
  match ids with
  | [] => 1
  | i :: rest => fold_left Z.max rest i + 1
  end.

(** The rows of [recipes] joined through [favorites] on the user's id, in
    the order of the [favorites] rows: what the SELECT behind
    [user.favorites] returns. *)
Definition joined_favorites (db : Database) (u : User.t) : list Recipe.t :=
  flat_map
    (fun f : Z * Z =>
       if fst f =? User.id u
       then filter (fun r => Recipe.id r =? snd f) (recipes db)
       else [])
    (favorites db).

(** The ORM loads a collection with each object once: a row whose primary
    key was seen before is skipped. *)
Fixpoint unique_by_id (seen : list Z) (rows : list Recipe.t) : list Recipe.t :=
  match rows with
  | [] => []
  | r :: rows' =>
      if existsb (Z.eqb (Recipe.id r)) seen
      then unique_by_id seen rows'
      else r :: unique_by_id (Recipe.id r :: seen) rows'
  end.

(** [user.favorites]. *)
Definition user_favorites (db : Database) (u : User.t) : list Recipe.t :=
  unique_by_id [] (joined_favorites db u).

(** [recipe in user.favorites]: the session's identity map gives one object
    per primary key, so membership is membership of the key. *)
Definition recipe_in (r : Recipe.t) (l : list Recipe.t) : bool :=
  existsb (fun r' => Recipe.id r' =? Recipe.id r) l.

(** Python truthiness of an [Optional[str]]: [None] and the empty string
    are false. *)
Definition truthy (s : option string) : bool :=
  match s with
  | None => false
  | Some EmptyString => false
  | Some (String _ _) => true
  end.

(** ** Text matching, as SQLite evaluates it *)

(** SQLite's [lower()] on one character: the letters A to Z only. *)
Definition lower (c : ascii) : ascii :=
  let n := N_of_ascii c in
  if ((65 <=? n) && (n <=? 90))%N then ascii_of_N (n + 32) else c.

Fixpoint sql_lower (s : string) : string :=
  match s with
  | EmptyString => EmptyString
  | String c s' => String (lower c) (sql_lower s')
  end.

(** [text LIKE pattern] without an escape character: ["%"] stands for any
    run of characters (the empty one too), ["_"] for exactly one character,
    any other character for itself up to the case of A to Z. *)
Fixpoint like (pattern : string) : string -> bool :=
  match pattern with
  | EmptyString =>
      fun text => match text with EmptyString => true | String _ _ => false end
  | String c rest =>
      if Ascii.eqb c "%" then
        fix any_run (text : string) : bool :=
          like rest text
          || match text with
             | EmptyString => false
             | String _ text' => any_run text'
             end
      else if Ascii.eqb c "_" then
        fun text =>
          match text with
          | EmptyString => false
          | String _ text' => like rest text'
          end
      else
        fun text =>
          match text with
          | EmptyString => false
          | String d text' => Ascii.eqb (lower c) (lower d) && like rest text'
          end
  end.

(** SQLite's LIKE reads its two operands as C strings: each ends before
    its first NUL character. *)
Fixpoint c_string (s : string) : string :=
  match s with
  | EmptyString => EmptyString
  | String c s' =>
      if Ascii.eqb c zero then EmptyString else String c (c_string s')
  end.

Definition sqlite_like (pattern text : string) : bool :=
  like (c_string pattern) (c_string text).

(** [column.ilike(pattern)], which the SQLite dialect renders as
    [lower(column) LIKE lower(pattern)]. *)
Definition ilike (column pattern : string) : bool :=
  sqlite_like (sql_lower pattern) (sql_lower column).

(** The length of a text in bytes, as SQLite holds it (UTF-8): one byte for
    a character below 128, two for the others. *)
Fixpoint utf8_length (s : string) : Z :=
  match s with
  | EmptyString => 0
  | String c s' => (if (N_of_ascii c <? 128)%N then 1 else 2) + utf8_length s'
  end.

(** SQLite's default limit on the bytes of a LIKE pattern. *)
Definition SQLITE_MAX_LIKE_PATTERN_LENGTH : Z := 50000.

(** Each evaluation of LIKE first checks the pattern against the limit and
    fails with "LIKE or GLOB pattern too complex" beyond it. *)
Definition like_pattern_too_long (q : string) : bool :=
  SQLITE_MAX_LIKE_PATTERN_LENGTH <? utf8_length (sql_lower ("%" ++ q ++ "%")).

(** The title filter makes the query fail when it applies, its pattern is
    beyond the limit and there is a row to evaluate it on; the title test is
    the first term of the WHERE clause, evaluated on every row scanned. *)
Definition like_raises (q : option string) (rows : list Recipe.t) : bool :=
  match q with
  | Some s =>
      truthy q && like_pattern_too_long s
      && match rows with [] => false | _ :: _ => true end
  | None => false
  end.

(** [Recipe.category == category]: a NULL column equals nothing. *)
Definition category_is (category : string) (r : Recipe.t) : bool :=
  match Recipe.category r with
  | Some c => String.eqb c category
  | None => false
  end.

(** [Recipe.title.ilike(f"%{q}%")]. *)
Definition title_ilike (q : string) (r : Recipe.t) : bool :=
  ilike (Recipe.title r) ("%" ++ q ++ "%").

(** [order_by(Recipe.id.desc())]: insertion into a list that is already in
    descending order of id. *)
Fixpoint insert_desc (r : Recipe.t) (l : list Recipe.t) : list Recipe.t :=
  match l with
  | [] => [r]
  | x :: l' =>
      if Recipe.id x <=? Recipe.id r then r :: l else x :: insert_desc r l'
  end.

Definition order_by_id_desc (l : list Recipe.t) : list Recipe.t :=
  fold_right insert_desc [] l.

(** [if param: query = query.filter(p(param))]. *)
Definition filter_if (param : option string)
    (p : string -> Recipe.t -> bool) (query : list Recipe.t) : list Recipe.t :=
  match param with
  | Some s => if truthy param then filter (p s) query else query
  | None => query
  end.

(** ** The password hashing library *)

(** [pwd_context]: [hash] draws a salt, here its second argument;
    [verify plain hashed] checks a password against a stored hash. *)
Record CryptContext : Type := mkCryptContext
  { hash : string -> string -> string;
    verify : string -> string -> bool }.

(** ** main.py: read-only handlers *)

Definition health_check : Response Message :=
  Ok 200 {| message := "Healthy" |}.

Definition list_or_search_recipes (q category : option string)
    (db : Database) : Response (list RecipeRead) :=
  let query := recipes db in
  let query := filter_if q title_ilike query in
  let query := filter_if category category_is query in
  if like_raises q (recipes db) then Unhandled "OperationalError"
  else
    let recipes := order_by_id_desc query in
    Ok 200 (map RecipeRead_from_orm recipes).

Definition get_recipe (recipe_id : Z) (db : Database) : Response RecipeRead :=
  match first_by_id Recipe.id recipe_id (recipes db) with
  | Overflow => Unhandled "OverflowError"
  | Missing => HTTPException 404 "Recipe not found"
  | Found recipe => Ok 200 (RecipeRead_from_orm recipe)
  end.

Definition get_favorites (user_id : Z) (db : Database)
    : Response (list RecipeRead) :=
  match first_by_id User.id user_id (users db) with
  | Overflow => Unhandled "OverflowError"
  | Missing => HTTPException 404 "User not found"
  | Found user => Ok 200 (map RecipeRead_from_orm (user_favorites db user))
  end.

(** ** main.py: handlers that write *)

Definition create_recipe (recipe : RecipeCreate) (now : Z) (db : Database)
    : Response RecipeRead * Database :=
  let db_recipe :=
    {| Recipe.id := next_id (map Recipe.id (recipes db));
       Recipe.title := rc_title recipe;
       Recipe.description := rc_description recipe;
       Recipe.ingredients := rc_ingredients recipe;
       Recipe.instructions := rc_instructions recipe;
       Recipe.image_url := rc_image_url recipe;
       Recipe.category := rc_category recipe;
       Recipe.created_at := now |} in
  (Ok 201 (RecipeRead_from_orm db_recipe),
   {| users := users db;
      recipes := recipes db ++ [db_recipe];
      favorites := favorites db |}).

(** The two lookups that open both favorites handlers, in the order of the
    code: an [OverflowError] of the first escapes before the second runs. *)
Definition lookup_both (recipe_id user_id : Z) (db : Database)
    : option (Lookup User.t * Lookup Recipe.t) :=
  match first_by_id User.id user_id (users db) with
  | Overflow => None
  | user =>
      match first_by_id Recipe.id recipe_id (recipes db) with
      | Overflow => None
      | recipe => Some (user, recipe)
      end
  end.

Definition add_to_favorites (recipe_id user_id : Z) (db : Database)
    : Response Message * Database :=
  match lookup_both recipe_id user_id db with
  | None => (Unhandled "OverflowError", db)
  | Some (Found user, Found recipe) =>
      if recipe_in recipe (user_favorites db user)
      then (Ok 200 {| message := "Already favorited" |}, db)
      else
        (Ok 200 {| message := "Recipe added to favorites" |},
         {| users := users db;
            recipes := recipes db;
            favorites := favorites db ++ [(User.id user, Recipe.id recipe)] |})
  | Some _ => (HTTPException 404 "User or Recipe not found", db)
  end.

(** The ORM flushes [user.favorites.remove(recipe)] as a DELETE on the join
    table keyed by the two ids, which deletes every row holding the pair. *)
Definition delete_favorite (user_id recipe_id : Z) (rows : list (Z * Z))
    : list (Z * Z) :=
  filter (fun f => negb ((fst f =? user_id) && (snd f =? recipe_id))) rows.

(** The rows a DELETE keyed by the two ids matches. *)
Definition matched_rows (user_id recipe_id : Z) (rows : list (Z * Z)) : nat :=
  List.length
    (filter (fun f => (fst f =? user_id) && (snd f =? recipe_id)) rows).

(** The ORM expects the DELETE of one removed object to match one row; on
    another count the flush inside [db.commit()] raises [StaleDataError] and
    the transaction is rolled back. *)
Definition remove_from_favorites (recipe_id user_id : Z) (db : Database)
    : Response Message * Database :=
  match lookup_both recipe_id user_id db with
  | None => (Unhandled "OverflowError", db)
  | Some (Found user, Found recipe) =>
      if recipe_in recipe (user_favorites db user)
      then
        if Nat.eqb
             (matched_rows (User.id user) (Recipe.id recipe) (favorites db)) 1
        then
          (Ok 200 {| message := "Recipe removed from favorites" |},
           {| users := users db;
              recipes := recipes db;
              favorites :=
                delete_favorite (User.id user) (Recipe.id recipe)
                  (favorites db) |})
        else (Unhandled "StaleDataError", db)
      else (Ok 200 {| message := "Recipe not in favorites" |}, db)
  | Some _ => (HTTPException 404 "User or Recipe not found", db)
  end.

Section Accounts.

Variable pwd_context : CryptContext.

Definition get_password_hash (password salt : string) : string :=
  hash pwd_context password salt.

Definition verify_password (plain_password hashed_password : string) : bool :=
  verify pwd_context plain_password hashed_password.

Definition authenticate_user (db : Database) (username password : string)
    : option User.t :=
  match first (fun u => String.eqb (User.username u) username) (users db) with
  | None => None
  | Some user =>
      if negb (verify_password password (User.hashed_password user))
      then None
      else Some user
  end.

Definition register_user (user : UserCreate) (salt : string) (now : Z)
    (db : Database) : Response UserRead * Database :=
  match first (fun u => String.eqb (User.username u) (uc_username user))
              (users db) with
  | Some _ => (HTTPException 400 "Username already registered", db)
  | None =>
      let hashed_pw := get_password_hash (uc_password user) salt in
      let new_user :=
        {| User.id := next_id (map User.id (users db));
           User.username := uc_username user;
           User.hashed_password := hashed_pw;
           User.created_at := now |} in
      (Ok 200 (UserRead_from_orm new_user),
       {| users := users db ++ [new_user];
          recipes := recipes db;
          favorites := favorites db |})
  end.

Definition login (username password : string) (db : Database)
    : Response Token :=
  match authenticate_user db username password with
  | None => HTTPException 401 "Incorrect username or password"
  | Some user =>
      Ok 200 {| access_token := User.username user ++ "-token-demo";
                token_type := "bearer" |}
  end.

(** ** The application: one request, one transition *)

Inductive Request : Type :=
| GET_root
| GET_recipes (q category : option string)
| GET_recipe (recipe_id : Z)
| POST_recipes (recipe : RecipeCreate) (now : Z)
| POST_register (user : UserCreate) (salt : string) (now : Z)
| POST_token (username password : string)
| POST_favorites (recipe_id user_id : Z)
| DELETE_favorites (recipe_id user_id : Z)
| GET_user_favorites (user_id : Z).

(** The persisted state after a request is served. *)
Definition serve (req : Request) (db : Database) : Database :=
  match req with
  | POST_recipes recipe now => snd (create_recipe recipe now db)
  | POST_register user salt now => snd (register_user user salt now db)
  | POST_favorites recipe_id user_id => snd (add_to_favorites recipe_id user_id db)
  | DELETE_favorites recipe_id user_id =>
      snd (remove_from_favorites recipe_id user_id db)
  | GET_root | GET_recipes _ _ | GET_recipe _ | POST_token _ _
  | GET_user_favorites _ => db
  end.

(** Requests served one after the other, the first of the list first. *)
Definition run (reqs : list Request) (db : Database) : Database :=
  fold_left (fun d req => serve req d) reqs db.

End Accounts.

(** ** The spec's reading of the search, for comparison with the code *)

(** [prefix_ci q s]: [s] starts with [q], up to the case of A to Z. *)
Fixpoint prefix_ci (q s : string) : bool :=
  match q, s with
  | EmptyString, _ => true
  | String _ _, EmptyString => false
  | String c q', String d s' => Ascii.eqb (lower c) (lower d) && prefix_ci q' s'
  end.

(** "title contains the query text as a case-insensitive substring". *)
Fixpoint contains_ci (q s : string) : bool :=
  prefix_ci q s
  || match s with
     | EmptyString => false
     | String _ s' => contains_ci q s'
     end.

(** The selection the spec describes: substring on the title when a query
    is given, equality on the category when a category is given. *)
Definition spec_selected (q category : option string) (r : Recipe.t) : bool :=
  match q with
  | Some s => contains_ci s (Recipe.title r)
  | None => true
  end
  && match category with
     | Some c => category_is c r
     | None => true
     end.

Definition spec_list_or_search_recipes (q category : option string)
    (db : Database) : Response (list RecipeRead) :=
  Ok 200 (map RecipeRead_from_orm
            (order_by_id_desc (filter (spec_selected q category) (recipes db)))).

(** The selection the handler makes: each filter applies when its
    parameter is truthy. *)
Definition selected (q category : option string) (r : Recipe.t) : bool :=
  match q with
  | Some s => if truthy q then title_ilike s r else true
  | None => true
  end
  && match category with
     | Some c => if truthy category then category_is c r else true
     | None => true
     end.

(** A query text without the two LIKE wildcards. *)
Fixpoint no_wildcard (q : string) : bool :=
  match q with
  | EmptyString => true
  | String c q' =>
      negb (Ascii.eqb c "%") && negb (Ascii.eqb c "_") && no_wildcard q'
  end.

(** ** Predicates on the persisted state *)

Definition resolves_user (db : Database) (user_id : Z) : Prop :=
  exists u, In u (users db) /\ User.id u = user_id.

Definition resolves_recipe (db : Database) (recipe_id : Z) : Prop :=
  exists r, In r (recipes db) /\ Recipe.id r = recipe_id.

Definition username_taken (db : Database) (name : string) : Prop :=
  exists u, In u (users db) /\ User.username u = name.

Definition is_favorite (db : Database) (user_id recipe_id : Z) : Prop :=
  In (user_id, recipe_id) (favorites db).

Definition pair_eq_dec (p q : Z * Z) : {p = q} + {p <> q}.
Proof. decide equality; apply Z.eq_dec. Defined.

Arguments pair_eq_dec : simpl never.

(** How many rows of the join table hold the pair. *)
Definition occurrences (db : Database) (user_id recipe_id : Z) : nat :=
  count_occ pair_eq_dec (favorites db) (user_id, recipe_id).

Definition at_most_once (db : Database) : Prop :=
  forall user_id recipe_id, (occurrences db user_id recipe_id <= 1)%nat.

(** The number of favorites listed for a user id (0 when it resolves to no
    user). *)
Definition favorites_count (db : Database) (user_id : Z) : nat :=
  match first (fun u => User.id u =? user_id) (users db) with
  | Some user => List.length (user_favorites db user)
  | None => 0%nat
  end.

(** A text without a NUL character. *)
Fixpoint no_nul (s : string) : bool :=
  match s with
  | EmptyString => true
  | String c s' => negb (Ascii.eqb c zero) && no_nul s'
  end.

(** What the schema's keys guarantee, together with the at-most-once
    property of the join table. *)
Record consistent (db : Database) : Prop := mkConsistent
  { user_ids_unique : NoDup (map User.id (users db));
    usernames_unique : NoDup (map User.username (users db));
    recipe_ids_unique : NoDup (map Recipe.id (recipes db));
    favorites_unique : NoDup (favorites db) }.

(** ** Auxiliary definitions of the statements *)

(** What both favorites handlers answer when a lookup found no row: the
    escaped [OverflowError], or the handler's own 404. *)
Definition lookup_failure (recipe_id user_id : Z) (db : Database)
    : Response Message :=
  match lookup_both recipe_id user_id db with
  | None => Unhandled "OverflowError"
  | Some _ => HTTPException 404 "User or Recipe not found"
  end.

(** The state with the join table replaced. *)
Definition with_favorites (db : Database) (rows : list (Z * Z)) : Database :=
  {| users := users db; recipes := recipes db; favorites := rows |}.

(** Descending order of id, weak and strict. *)
Definition newer_or_same (a b : Recipe.t) : Prop := Recipe.id a >= Recipe.id b.
Definition newer (a b : Recipe.t) : Prop := Recipe.id a > Recipe.id b.

(** [any_suffix f s]: [f] holds of [s] or of one of its proper suffixes. *)
Fixpoint any_suffix (f : string -> bool) (s : string) : bool :=
  f s
  || match s with
     | EmptyString => false
     | String _ s' => any_suffix f s'
     end.

(** ** A small populated state, used to instantiate the statements *)

Definition alice : User.t :=
  {| User.id := 1; User.username := "alice";
     User.hashed_password := "$hash$pw1"; User.created_at := 0 |}.

Definition tomato_soup : Recipe.t :=
  {| Recipe.id := 1; Recipe.title := "Tomato Soup";
     Recipe.description := None; Recipe.ingredients := None;
     Recipe.instructions := None; Recipe.image_url := None;
     Recipe.category := Some "Dessert"; Recipe.created_at := 0 |}.

Definition demo_db : Database :=
  {| users := [alice]; recipes := [tomato_soup]; favorites := [] |}.

Definition demo_db_fav : Database :=
  {| users := [alice]; recipes := [tomato_soup]; favorites := [(1, 1)] |}.

Definition tomato_salad : Recipe.t :=
  {| Recipe.id := 2; Recipe.title := "Tomato Salad";
     Recipe.description := None; Recipe.ingredients := None;
     Recipe.instructions := None; Recipe.image_url := None;
     Recipe.category := None; Recipe.created_at := 3 |}.

Definition demo_db_two : Database :=
  {| users := [alice]; recipes := [tomato_soup; tomato_salad];
     favorites := [(1, 1); (1, 2)] |}.

(** A hashing scheme to instantiate the statements with: the hash is the
    password behind a fixed prefix. *)
Definition demo_context : CryptContext :=
  {| hash := fun password _ => ("$hash$" ++ password)%string;
     verify := fun plain hashed => String.eqb hashed ("$hash$" ++ plain)%string |}.

(** * Proofs *)

Local Open Scope list_scope.

(** Splits the conjunctions of the goal, leaving equivalences whole. *)
Ltac splits := repeat match goal with |- _ /\ _ => split end.

(** Case analysis on the outcomes of a favorites handler, from its lemma of
    cases: one goal per outcome, the handler's value rewritten. *)
Ltac by_cases cases :=
  let C := fresh "C" in
  let E := fresh "E" in
  (pose proof cases as C;
   repeat match type of C with _ \/ _ => destruct C as [C|C] end);
  [ destruct C as [?H E] | destruct C as (?Ru & ?Rr & ?F & E) .. ];
  rewrite ?E in *; simpl in *.

(** ** Lookups *)

Lemma first_None_iff {A} (p : A -> bool) (rows : list A) :
  first p rows = None <-> forall x, In x rows -> p x = false.
Proof.
  unfold first. split.
  - intros H x Hx. exact (find_none p rows H x Hx).
  - induction rows as [|y rows IH]; intros H; simpl; [reflexivity|].
    rewrite (H y (or_introl eq_refl)). apply IH.
    intros x Hx. apply H. right. exact Hx.
Qed.

Lemma first_Some {A} (p : A -> bool) (rows : list A) (x : A) :
  first p rows = Some x -> In x rows /\ p x = true.
Proof. unfold first. apply find_some. Qed.

Lemma first_user_None db user_id :
  first (fun u => User.id u =? user_id) (users db) = None
  <-> ~ resolves_user db user_id.
Proof.
  rewrite first_None_iff. unfold resolves_user. split.
  - intros H (u & Hu & E). specialize (H u Hu). lia.
  - intros H u Hu. apply Z.eqb_neq. intros E. apply H. eauto.
Qed.

Lemma first_recipe_None db recipe_id :
  first (fun r => Recipe.id r =? recipe_id) (recipes db) = None
  <-> ~ resolves_recipe db recipe_id.
Proof.
  rewrite first_None_iff. unfold resolves_recipe. split.
  - intros H (r & Hr & E). specialize (H r Hr). lia.
  - intros H r Hr. apply Z.eqb_neq. intros E. apply H. eauto.
Qed.

Lemma first_username_None db name :
  first (fun u => String.eqb (User.username u) name) (users db) = None
  <-> ~ username_taken db name.
Proof.
  rewrite first_None_iff. unfold username_taken. split.
  - intros H (u & Hu & E). specialize (H u Hu). simpl in H.
    apply String.eqb_neq in H. contradiction.
  - intros H u Hu. apply String.eqb_neq. intros E. apply H. eauto.
Qed.

Lemma resolves_user_first db user_id :
  resolves_user db user_id ->
  exists user, first (fun u => User.id u =? user_id) (users db) = Some user
               /\ In user (users db) /\ User.id user = user_id.
Proof.
  intros H.
  destruct (first (fun u => User.id u =? user_id) (users db)) as [user|] eqn:E.
  - exists user. destruct (first_Some _ _ _ E) as [Hin Hp].
    repeat split; trivial. lia.
  - apply first_user_None in E. contradiction.
Qed.

Lemma resolves_recipe_first db recipe_id :
  resolves_recipe db recipe_id ->
  exists recipe,
    first (fun r => Recipe.id r =? recipe_id) (recipes db) = Some recipe
    /\ In recipe (recipes db) /\ Recipe.id recipe = recipe_id.
Proof.
  intros H.
  destruct (first (fun r => Recipe.id r =? recipe_id) (recipes db))
    as [recipe|] eqn:E.
  - exists recipe. destruct (first_Some _ _ _ E) as [Hin Hp].
    repeat split; trivial. lia.
  - apply first_recipe_None in E. contradiction.
Qed.

(** A lookup by id finds a row exactly when the id resolves; an id that
    resolves to no row is missing when it is in the signed 64-bit range and
    overflows otherwise. *)
Lemma first_by_id_resolved {A} (key : A -> Z) (i : Z) (rows : list A) (r : A) :
  first (fun row => key row =? i) rows = Some r ->
  first_by_id key i rows = Found r.
Proof. unfold first_by_id. now intros ->. Qed.

Lemma first_by_id_unresolved {A} (key : A -> Z) (i : Z) (rows : list A) :
  first (fun row => key row =? i) rows = None ->
  first_by_id key i rows = if in_int64 i then Missing else Overflow.
Proof. unfold first_by_id. now intros ->. Qed.

(** On a table whose keys are in range, this is the driver's order: the
    range of the id is checked before any row is looked at. *)
Lemma first_by_id_checks_range {A} (key : A -> Z) (i : Z) (rows : list A) :
  (forall row, In row rows -> in_int64 (key row) = true) ->
  first_by_id key i rows
  = if in_int64 i
    then match first (fun row => key row =? i) rows with
         | Some row => Found row
         | None => Missing
         end
    else Overflow.
Proof.
  intros Hrange. unfold first_by_id.
  destruct (first (fun row => key row =? i) rows) as [r|] eqn:E.
  - destruct (first_Some _ _ _ E) as [Hin Hk]. apply Z.eqb_eq in Hk.
    rewrite <- Hk, (Hrange r Hin). reflexivity.
  - now destruct (in_int64 i).
Qed.

(** A key that is unique in the table is found with its own row. *)
Lemma first_unique {A K} (key : A -> K) (eqb : K -> K -> bool)
    (rows : list A) (x : A) :
  (forall a b, eqb a b = true <-> a = b) ->
  NoDup (map key rows) -> In x rows ->
  first (fun y => eqb (key y) (key x)) rows = Some x.
Proof.
  intros Heqb. unfold first.
  induction rows as [|y rows IH]; simpl; intros Hnd Hin.
  - contradiction.
  - inversion Hnd as [|k ks Hk Hnd']; subst.
    destruct Hin as [->|Hin].
    + now rewrite (proj2 (Heqb (key x) (key x)) eq_refl).
    + destruct (eqb (key y) (key x)) eqn:E.
      * exfalso. apply Hk. apply Heqb in E. rewrite E. now apply in_map.
      * now apply IH.
Qed.

(** A row appended to the table is found by a test that no older row
    passes. *)
Lemma first_appended {A} (p : A -> bool) (rows : list A) (x : A) :
  (forall y, In y rows -> p y = false) -> p x = true ->
  first p (rows ++ [x]) = Some x.
Proof.
  unfold first. induction rows as [|y rows IH]; simpl; intros Hold Hx.
  - now rewrite Hx.
  - rewrite (Hold y (or_introl eq_refl)). apply IH; auto.
Qed.

(** ** Fresh identifiers *)

Lemma fold_left_max_ge (l : list Z) (a : Z) :
  a <= fold_left Z.max l a /\ forall i, In i l -> i <= fold_left Z.max l a.
Proof.
  revert a. induction l as [|x l IH]; simpl; intros a.
  - split; [lia | contradiction].
  - destruct (IH (Z.max a x)) as [H1 H2]. split; [lia|].
    intros i [<-|Hi]; [lia | now apply H2].
Qed.

Lemma next_id_fresh (ids : list Z) (i : Z) : In i ids -> i < next_id ids.
Proof.
  destruct ids as [|a l]; simpl; [contradiction|].
  destruct (fold_left_max_ge l a) as [H1 H2].
  intros [<-|Hi]; [lia | specialize (H2 i Hi); lia].
Qed.

Lemma next_id_not_in (ids : list Z) : ~ In (next_id ids) ids.
Proof. intros H. apply next_id_fresh in H. lia. Qed.

(** ** The join table *)

Lemma seen_iff (i : Z) (seen : list Z) :
  existsb (Z.eqb i) seen = true <-> In i seen.
Proof.
  rewrite existsb_exists. split.
  - intros (k & Hk & E). apply Z.eqb_eq in E. now subst.
  - intros H. exists i. split; [exact H | apply Z.eqb_refl].
Qed.

Lemma unique_by_id_ids seen rows i :
  In i (map Recipe.id (unique_by_id seen rows))
  <-> In i (map Recipe.id rows) /\ ~ In i seen.
Proof.
  revert seen. induction rows as [|r rows IH]; intros seen; simpl.
  - tauto.
  - destruct (existsb (Z.eqb (Recipe.id r)) seen) eqn:E.
    + apply seen_iff in E. rewrite IH. split; [tauto|].
      intros [[<-|H] N]; [contradiction | tauto].
    + assert (N : ~ In (Recipe.id r) seen)
        by (rewrite <- seen_iff; congruence).
      simpl. rewrite IH. simpl.
      destruct (Z.eq_dec (Recipe.id r) i) as [<-|D]; tauto.
Qed.

Lemma unique_by_id_incl seen rows r :
  In r (unique_by_id seen rows) -> In r rows.
Proof.
  revert seen. induction rows as [|x rows IH]; intros seen; simpl; [tauto|].
  destruct (existsb (Z.eqb (Recipe.id x)) seen).
  - intros H. right. now apply (IH seen).
  - intros [->|H]; [now left | right; now apply (IH _ H)].
Qed.

Lemma unique_by_id_NoDup seen rows :
  NoDup (map Recipe.id (unique_by_id seen rows)).
Proof.
  revert seen. induction rows as [|x rows IH]; intros seen; simpl.
  - constructor.
  - destruct (existsb (Z.eqb (Recipe.id x)) seen); [apply IH|].
    simpl. constructor; [|apply IH].
    rewrite unique_by_id_ids. simpl. tauto.
Qed.

(** Rows with distinct keys are all kept. *)
Lemma unique_by_id_same seen rows :
  NoDup (map Recipe.id rows) ->
  (forall i, In i (map Recipe.id rows) -> ~ In i seen) ->
  unique_by_id seen rows = rows.
Proof.
  revert seen. induction rows as [|x rows IH]; intros seen Hnd Hseen; simpl.
  - reflexivity.
  - inversion Hnd as [|k ks Hk Hnd']; subst.
    destruct (existsb (Z.eqb (Recipe.id x)) seen) eqn:E.
    + apply seen_iff in E. exfalso. apply (Hseen (Recipe.id x)); simpl; auto.
    + f_equal. apply IH; [exact Hnd'|].
      intros i Hi [<-|Hs]; [contradiction|].
      apply (Hseen i); simpl; auto.
Qed.

Lemma recipe_in_ids (r : Recipe.t) (l : list Recipe.t) :
  recipe_in r l = true <-> In (Recipe.id r) (map Recipe.id l).
Proof.
  unfold recipe_in. rewrite existsb_exists, in_map_iff.
  split; intros (x & H1 & H2).
  - apply Z.eqb_eq in H2. eauto.
  - exists x. split; [exact H2 | now apply Z.eqb_eq].
Qed.

Lemma in_joined_favorites db (u : User.t) (r : Recipe.t) :
  In r (joined_favorites db u)
  <-> is_favorite db (User.id u) (Recipe.id r) /\ In r (recipes db).
Proof.
  unfold joined_favorites, is_favorite. rewrite in_flat_map. split.
  - intros ([fu fr] & Hf & Hr). simpl in Hr.
    destruct (fu =? User.id u) eqn:Eu; [|contradiction].
    apply filter_In in Hr. destruct Hr as [Hr Er].
    apply Z.eqb_eq in Eu, Er. subst. tauto.
  - intros [Hf Hr]. exists (User.id u, Recipe.id r). split; [exact Hf|].
    simpl. rewrite Z.eqb_refl. apply filter_In. split; [exact Hr|].
    apply Z.eqb_refl.
Qed.

(** What the user's collection holds is a stored recipe that is a favorite
    of the user. *)
Lemma in_user_favorites db (u : User.t) (r : Recipe.t) :
  In r (user_favorites db u) ->
  is_favorite db (User.id u) (Recipe.id r) /\ In r (recipes db).
Proof.
  intros H. apply unique_by_id_incl in H. now apply in_joined_favorites.
Qed.

Lemma recipe_in_iff db (u : User.t) (r : Recipe.t) :
  recipe_in r (user_favorites db u) = true
  <-> is_favorite db (User.id u) (Recipe.id r)
      /\ resolves_recipe db (Recipe.id r).
Proof.
  rewrite recipe_in_ids. unfold user_favorites.
  rewrite unique_by_id_ids, in_map_iff. unfold resolves_recipe. split.
  - intros [(x & E & Hx) _]. apply in_joined_favorites in Hx.
    rewrite <- E. destruct Hx. eauto.
  - intros [Hf (x & Hx & E)]. split; [|tauto]. exists x. split; [exact E|].
    apply in_joined_favorites. now rewrite E.
Qed.

(** For a recipe that was just looked up, the handlers' membership test is
    membership of the pair in the join table. *)
Lemma recipe_in_found db (u : User.t) (r : Recipe.t) :
  In r (recipes db) ->
  recipe_in r (user_favorites db u) = true
  <-> is_favorite db (User.id u) (Recipe.id r).
Proof.
  intros Hr. rewrite recipe_in_iff. unfold resolves_recipe.
  split; [tauto | eauto].
Qed.

Lemma delete_favorite_cons user_id recipe_id (f : Z * Z) rows :
  delete_favorite user_id recipe_id (f :: rows)
  = if (fst f =? user_id) && (snd f =? recipe_id)
    then delete_favorite user_id recipe_id rows
    else f :: delete_favorite user_id recipe_id rows.
Proof.
  unfold delete_favorite. simpl.
  now destruct ((fst f =? user_id) && (snd f =? recipe_id)).
Qed.

Lemma delete_favorite_absent user_id recipe_id rows :
  ~ In (user_id, recipe_id) rows ->
  delete_favorite user_id recipe_id rows = rows.
Proof.
  unfold delete_favorite. induction rows as [|[fu fr] rows IH]; simpl; intros H.
  - reflexivity.
  - destruct ((fu =? user_id) && (fr =? recipe_id)) eqn:E; simpl.
    + exfalso. apply H. left. apply andb_true_iff in E. destruct E as [E1 E2].
      apply Z.eqb_eq in E1. apply Z.eqb_eq in E2. now subst.
    + f_equal. apply IH. tauto.
Qed.

Lemma in_delete_favorite user_id recipe_id rows p :
  In p (delete_favorite user_id recipe_id rows)
  <-> In p rows /\ p <> (user_id, recipe_id).
Proof.
  unfold delete_favorite. rewrite filter_In. destruct p as [pu pr]. simpl.
  rewrite negb_true_iff, andb_false_iff, !Z.eqb_neq.
  split; intros [H1 H2]; split; trivial.
  - intros E. inversion E. tauto.
  - destruct (Z.eq_dec pu user_id); [right | now left].
    intros ->. subst. now apply H2.
Qed.

Lemma count_occ_delete_other user_id recipe_id rows p :
  p <> (user_id, recipe_id) ->
  count_occ pair_eq_dec (delete_favorite user_id recipe_id rows) p
  = count_occ pair_eq_dec rows p.
Proof.
  intros Hp. unfold delete_favorite.
  induction rows as [|[fu fr] rows IH]; simpl; [reflexivity|].
  destruct ((fu =? user_id) && (fr =? recipe_id)) eqn:E; simpl.
  - apply andb_true_iff in E. destruct E as [E1 E2].
    apply Z.eqb_eq in E1. apply Z.eqb_eq in E2. subst.
    destruct (pair_eq_dec (user_id, recipe_id) p); [congruence | exact IH].
  - destruct (pair_eq_dec (fu, fr) p); now rewrite IH.
Qed.

Lemma count_occ_append_other rows (p x : Z * Z) :
  p <> x ->
  count_occ pair_eq_dec (rows ++ [x]) p = count_occ pair_eq_dec rows p.
Proof.
  intros Hp. rewrite count_occ_app. simpl.
  destruct (pair_eq_dec x p); [congruence | lia].
Qed.

Lemma NoDup_snoc {A} (l : list A) (x : A) :
  NoDup l -> ~ In x l -> NoDup (l ++ [x]).
Proof.
  intros Hl Hx. apply (Permutation_NoDup (l := x :: l)).
  - apply Permutation_cons_append.
  - now constructor.
Qed.

Lemma at_most_once_NoDup db : at_most_once db <-> NoDup (favorites db).
Proof.
  unfold at_most_once, occurrences. rewrite (NoDup_count_occ pair_eq_dec).
  split; [intros H [u r]; apply H | intros H u r; apply H].
Qed.

(** A key that is unique selects exactly its row. *)
Lemma filter_unique {A} (key : A -> Z) (rows : list A) (x : A) :
  NoDup (map key rows) -> In x rows ->
  filter (fun y => key y =? key x) rows = [x].
Proof.
  induction rows as [|y rows IH]; simpl; intros Hnd Hin; [contradiction|].
  inversion Hnd as [|k ks Hk Hnd']; subst.
  assert (Hrest : forall z, ~ In (key z) (map key rows) ->
                            filter (fun y => key y =? key z) rows = []).
  { intros z Hz. clear - Hz. induction rows as [|w rows IH]; simpl; trivial.
    destruct (key w =? key z) eqn:E.
    - exfalso. apply Hz. left. now apply Z.eqb_eq.
    - apply IH. intros H. apply Hz. now right. }
  destruct Hin as [->|Hin].
  - rewrite Z.eqb_refl. f_equal. now apply Hrest.
  - destruct (key y =? key x) eqn:E.
    + exfalso. apply Hk. apply Z.eqb_eq in E. rewrite E. now apply in_map.
    + now apply IH.
Qed.

Lemma flat_map_filter_nil {A B} (g : A -> list B) (p : A -> bool) (l : list A) :
  (forall x, In x l -> p x = false -> g x = []) ->
  flat_map g (filter p l) = flat_map g l.
Proof.
  induction l as [|x l IH]; simpl; intros H; [reflexivity|].
  destruct (p x) eqn:E; simpl.
  - f_equal. apply IH. intros y Hy. apply H. now right.
  - rewrite (H x (or_introl eq_refl) E). simpl. apply IH.
    intros y Hy. apply H. now right.
Qed.

(** Filtering the table keeps its ids unique. *)
Lemma filter_ids_unique (keep : Recipe.t -> bool) (rows : list Recipe.t) :
  NoDup (map Recipe.id rows) -> NoDup (map Recipe.id (filter keep rows)).
Proof.
  intros Hnd. induction rows as [|x rows IH]; simpl; [constructor|].
  inversion Hnd as [|k ks Hk Hnd']; subst.
  destruct (keep x); simpl; [|now apply IH].
  constructor; [|now apply IH].
  intros Hin. apply Hk. apply in_map_iff in Hin.
  destruct Hin as (y & E & Hy). apply filter_In in Hy.
  rewrite <- E. apply in_map. tauto.
Qed.

(** The rows of [favorites] that belong to another user are all that the
    other user's list depends on. *)
Lemma user_favorites_delete_other db db' (u : User.t) user_id recipe_id :
  recipes db' = recipes db ->
  favorites db' = delete_favorite user_id recipe_id (favorites db) ->
  User.id u <> user_id ->
  user_favorites db' u = user_favorites db u.
Proof.
  intros Hr Hf Hu. unfold user_favorites, joined_favorites. rewrite Hr, Hf.
  f_equal. unfold delete_favorite. apply flat_map_filter_nil.
  intros [fu fr] _ E. simpl in *.
  rewrite negb_false_iff, andb_true_iff, !Z.eqb_eq in E. destruct E as [-> _].
  destruct (user_id =? User.id u) eqn:E; [|reflexivity].
  apply Z.eqb_eq in E. congruence.
Qed.

Lemma joined_favorites_append db db' (u : User.t) user_id recipe_id :
  recipes db' = recipes db ->
  favorites db' = favorites db ++ [(user_id, recipe_id)] ->
  joined_favorites db' u
  = joined_favorites db u
    ++ (if user_id =? User.id u
        then filter (fun r => Recipe.id r =? recipe_id) (recipes db)
        else []).
Proof.
  intros Hr Hf. unfold joined_favorites. rewrite Hr, Hf, flat_map_app. simpl.
  now rewrite app_nil_r.
Qed.

Lemma user_favorites_append_other db db' (u : User.t) user_id recipe_id :
  recipes db' = recipes db ->
  favorites db' = favorites db ++ [(user_id, recipe_id)] ->
  User.id u <> user_id ->
  user_favorites db' u = user_favorites db u.
Proof.
  intros Hr Hf Hu. unfold user_favorites.
  rewrite (joined_favorites_append db db' u user_id recipe_id Hr Hf).
  destruct (user_id =? User.id u) eqn:E.
  - apply Z.eqb_eq in E. congruence.
  - now rewrite app_nil_r.
Qed.

(** With unique recipe ids and no repeated pair, the join has each recipe
    once and the collection is the join. *)
Lemma joined_ids_unique db (u : User.t) :
  NoDup (map Recipe.id (recipes db)) -> NoDup (favorites db) ->
  NoDup (map Recipe.id (joined_favorites db u)).
Proof.
  intros Hids. unfold joined_favorites.
  induction (favorites db) as [|[fu fr] rows IH]; simpl; intros Hnd.
  - constructor.
  - inversion Hnd as [|x xs Hx Hnd']; subst. rewrite map_app.
    apply NoDup_app; [| now apply IH |].
    + destruct (fu =? User.id u); [now apply filter_ids_unique | constructor].
    + intros i Hi Hi'.
      destruct (fu =? User.id u) eqn:Eu; [|contradiction].
      apply Z.eqb_eq in Eu.
      apply in_map_iff in Hi. destruct Hi as (r & <- & Hr).
      apply filter_In in Hr. destruct Hr as [_ Er]. apply Z.eqb_eq in Er.
      apply in_map_iff in Hi'. destruct Hi' as (r' & Er' & Hr').
      apply in_flat_map in Hr'. destruct Hr' as ([gu gr] & Hg & Hr').
      simpl in Hr'. destruct (gu =? User.id u) eqn:Egu; [|contradiction].
      apply Z.eqb_eq in Egu. apply filter_In in Hr'. destruct Hr' as [_ Eg].
      apply Z.eqb_eq in Eg. apply Hx.
      replace (fu, fr) with (gu, gr); [exact Hg|]. f_equal; congruence.
Qed.

Lemma user_favorites_joined db (u : User.t) :
  NoDup (map Recipe.id (recipes db)) -> NoDup (favorites db) ->
  user_favorites db u = joined_favorites db u.
Proof.
  intros Hids Hnd. unfold user_favorites. apply unique_by_id_same.
  - now apply joined_ids_unique.
  - intros i _ [].
Qed.

Lemma user_favorites_ids_unique db (u : User.t) :
  NoDup (map Recipe.id (user_favorites db u)).
Proof. apply unique_by_id_NoDup. Qed.

(** Deleting a pair that is held once shortens the user's list by the one
    recipe with that id. *)
Lemma user_favorites_delete_length db db' (u : User.t) (r : Recipe.t) :
  NoDup (map Recipe.id (recipes db)) -> NoDup (favorites db) ->
  In r (recipes db) -> is_favorite db (User.id u) (Recipe.id r) ->
  recipes db' = recipes db ->
  favorites db' = delete_favorite (User.id u) (Recipe.id r) (favorites db) ->
  S (List.length (user_favorites db' u)) = List.length (user_favorites db u).
Proof.
  intros Hids Hnd Hr Hfav Hr' Hf'.
  rewrite (user_favorites_joined db u Hids Hnd).
  rewrite (user_favorites_joined db' u).
  2:{ now rewrite Hr'. }
  2:{ rewrite Hf'. now apply NoDup_filter. }
  unfold joined_favorites, is_favorite in *.
  rewrite Hr', Hf'. clear Hr' Hf'.
  induction (favorites db) as [|[fu fr] rows IH]; [contradiction|].
  inversion Hnd as [|x xs Hx Hnd']; subst.
  rewrite delete_favorite_cons. simpl fst. simpl snd.
  destruct ((fu =? User.id u) && (fr =? Recipe.id r)) eqn:E.
  - apply andb_true_iff in E. rewrite !Z.eqb_eq in E. destruct E; subst.
    rewrite delete_favorite_absent by exact Hx.
    simpl. rewrite Z.eqb_refl.
    rewrite (filter_unique Recipe.id _ r Hids Hr). reflexivity.
  - destruct Hfav as [Hfav|Hfav].
    + inversion Hfav; subst. now rewrite !Z.eqb_refl in E.
    + specialize (IH Hnd' Hfav). simpl. rewrite !length_app, <- IH. lia.
Qed.

(** The rows a DELETE of the pair matches are the occurrences of the pair. *)
Lemma matched_rows_count user_id recipe_id rows :
  matched_rows user_id recipe_id rows
  = count_occ pair_eq_dec rows (user_id, recipe_id).
Proof.
  unfold matched_rows. induction rows as [|[fu fr] rows IH]; simpl.
  - reflexivity.
  - destruct (pair_eq_dec (fu, fr) (user_id, recipe_id)) as [E|E].
    + inversion E; subst. rewrite !Z.eqb_refl. simpl. now rewrite IH.
    + destruct ((fu =? user_id) && (fr =? recipe_id)) eqn:B; [|exact IH].
      apply andb_true_iff in B. rewrite !Z.eqb_eq in B.
      destruct B; subst. congruence.
Qed.

(** ** The outcomes of the favorites handlers *)

Lemma first_by_id_user db user_id :
  (exists user, first_by_id User.id user_id (users db) = Found user
                /\ In user (users db) /\ User.id user = user_id
                /\ resolves_user db user_id)
  \/ (~ resolves_user db user_id
      /\ first_by_id User.id user_id (users db)
         = if in_int64 user_id then Missing else Overflow).
Proof.
  destruct (first (fun u => User.id u =? user_id) (users db)) as [u|] eqn:E.
  - left. exists u. destruct (first_Some _ _ _ E) as [Hin Hid].
    apply Z.eqb_eq in Hid. splits; trivial.
    + now apply first_by_id_resolved.
    + now exists u.
  - right. split; [now apply first_user_None|].
    now apply first_by_id_unresolved.
Qed.

Lemma first_by_id_recipe db recipe_id :
  (exists recipe, first_by_id Recipe.id recipe_id (recipes db) = Found recipe
                  /\ In recipe (recipes db) /\ Recipe.id recipe = recipe_id
                  /\ resolves_recipe db recipe_id)
  \/ (~ resolves_recipe db recipe_id
      /\ first_by_id Recipe.id recipe_id (recipes db)
         = if in_int64 recipe_id then Missing else Overflow).
Proof.
  destruct (first (fun r => Recipe.id r =? recipe_id) (recipes db))
    as [r|] eqn:E.
  - left. exists r. destruct (first_Some _ _ _ E) as [Hin Hid].
    apply Z.eqb_eq in Hid. splits; trivial.
    + now apply first_by_id_resolved.
    + now exists r.
  - right. split; [now apply first_recipe_None|].
    now apply first_by_id_unresolved.
Qed.

(** Both lookups find their rows exactly when both ids resolve; otherwise
    the handlers answer [lookup_failure]. *)
Lemma lookup_both_cases db recipe_id user_id :
  (exists user recipe,
      lookup_both recipe_id user_id db = Some (Found user, Found recipe)
      /\ In user (users db) /\ User.id user = user_id
      /\ In recipe (recipes db) /\ Recipe.id recipe = recipe_id
      /\ resolves_user db user_id /\ resolves_recipe db recipe_id)
  \/ ((~ resolves_user db user_id \/ ~ resolves_recipe db recipe_id)
      /\ (lookup_both recipe_id user_id db = None
          \/ exists user recipe,
               lookup_both recipe_id user_id db = Some (user, recipe)
               /\ (user = Missing \/ recipe = Missing))).
Proof.
  unfold lookup_both.
  destruct (first_by_id_user db user_id)
    as [(user & -> & Hu & Eu & Ru)|[Nu ->]];
    destruct (first_by_id_recipe db recipe_id)
      as [(recipe & -> & Hr & Er & Rr)|[Nr ->]].
  - left. exists user, recipe. splits; trivial.
  - right. split; [now right|].
    destruct (in_int64 recipe_id); [right | now left].
    exists (Found user), Missing. auto.
  - right. split; [now left|].
    destruct (in_int64 user_id); [right | now left].
    exists Missing, (Found recipe). auto.
  - right. split; [now left|].
    destruct (in_int64 user_id); [|now left].
    destruct (in_int64 recipe_id); [right | now left].
    exists Missing, Missing. auto.
Qed.

Lemma lookup_failure_is_error recipe_id user_id db :
  is_error (lookup_failure recipe_id user_id db) = true.
Proof. unfold lookup_failure. now destruct (lookup_both _ _ _). Qed.

Lemma add_to_favorites_cases db recipe_id user_id :
  ((~ resolves_user db user_id \/ ~ resolves_recipe db recipe_id)
   /\ add_to_favorites recipe_id user_id db
      = (lookup_failure recipe_id user_id db, db))
  \/ (resolves_user db user_id /\ resolves_recipe db recipe_id
      /\ is_favorite db user_id recipe_id
      /\ add_to_favorites recipe_id user_id db
         = (Ok 200 {| message := "Already favorited" |}, db))
  \/ (resolves_user db user_id /\ resolves_recipe db recipe_id
      /\ ~ is_favorite db user_id recipe_id
      /\ add_to_favorites recipe_id user_id db
         = (Ok 200 {| message := "Recipe added to favorites" |},
            with_favorites db (favorites db ++ [(user_id, recipe_id)]))).
Proof.
  unfold add_to_favorites, lookup_failure.
  destruct (lookup_both_cases db recipe_id user_id)
    as [(user & recipe & -> & Hu & Eu & Hr & Er & Ru & Rr)
       |[N [->|(user & recipe & -> & M)]]].
  - right. pose proof (recipe_in_found db user recipe Hr) as Hin.
    rewrite Eu, Er in *.
    destruct (recipe_in recipe (user_favorites db user)).
    + left. splits; trivial. now apply Hin.
    + right. splits; trivial. intros F. apply Hin in F. discriminate.
  - left. now split.
  - left. split; [exact N|]. destruct M as [-> | ->]; [reflexivity|].
    now destruct user.
Qed.

Lemma remove_from_favorites_cases db recipe_id user_id :
  ((~ resolves_user db user_id \/ ~ resolves_recipe db recipe_id)
   /\ remove_from_favorites recipe_id user_id db
      = (lookup_failure recipe_id user_id db, db))
  \/ (resolves_user db user_id /\ resolves_recipe db recipe_id
      /\ (is_favorite db user_id recipe_id
          /\ occurrences db user_id recipe_id = 1%nat)
      /\ remove_from_favorites recipe_id user_id db
         = (Ok 200 {| message := "Recipe removed from favorites" |},
            with_favorites db
              (delete_favorite user_id recipe_id (favorites db))))
  \/ (resolves_user db user_id /\ resolves_recipe db recipe_id
      /\ ~ is_favorite db user_id recipe_id
      /\ remove_from_favorites recipe_id user_id db
         = (Ok 200 {| message := "Recipe not in favorites" |}, db))
  \/ (resolves_user db user_id /\ resolves_recipe db recipe_id
      /\ (is_favorite db user_id recipe_id
          /\ (1 < occurrences db user_id recipe_id)%nat)
      /\ remove_from_favorites recipe_id user_id db
         = (Unhandled "StaleDataError", db)).
Proof.
  unfold remove_from_favorites, lookup_failure.
  destruct (lookup_both_cases db recipe_id user_id)
    as [(user & recipe & -> & Hu & Eu & Hr & Er & Ru & Rr)
       |[N [->|(user & recipe & -> & M)]]].
  - right. pose proof (recipe_in_found db user recipe Hr) as Hin.
    rewrite Eu, Er in *.
    destruct (recipe_in recipe (user_favorites db user)).
    + assert (F : is_favorite db user_id recipe_id) by now apply Hin.
      assert (P : (0 < occurrences db user_id recipe_id)%nat)
        by (apply count_occ_In; exact F).
      rewrite matched_rows_count. fold (occurrences db user_id recipe_id).
      destruct (Nat.eqb (occurrences db user_id recipe_id) 1) eqn:C.
      * left. apply Nat.eqb_eq in C. splits; trivial.
      * right. right. apply Nat.eqb_neq in C. splits; trivial. lia.
    + right. left. splits; trivial. intros F. apply Hin in F. discriminate.
  - left. now split.
  - left. split; [exact N|]. destruct M as [-> | ->]; [reflexivity|].
    now destruct user.
Qed.

(** ** Consistency is an invariant of the application *)

Lemma init_db_consistent : consistent init_db.
Proof. split; simpl; constructor. Qed.

Lemma create_recipe_consistent recipe now db :
  consistent db -> consistent (snd (create_recipe recipe now db)).
Proof.
  intros [H1 H2 H3 H4]. split; simpl; trivial.
  rewrite map_app. simpl. apply NoDup_snoc; [exact H3|]. apply next_id_not_in.
Qed.

Lemma add_to_favorites_consistent recipe_id user_id db :
  consistent db -> consistent (snd (add_to_favorites recipe_id user_id db)).
Proof.
  intros H.
  destruct (add_to_favorites_cases db recipe_id user_id)
    as [[_ E]|[(_ & _ & _ & E)|(_ & _ & Hn & E)]]; rewrite E; simpl; trivial.
  destruct H as [H1 H2 H3 H4]. split; simpl; trivial.
  now apply NoDup_snoc.
Qed.

Lemma remove_from_favorites_consistent recipe_id user_id db :
  consistent db -> consistent (snd (remove_from_favorites recipe_id user_id db)).
Proof.
  intros H.
  destruct (remove_from_favorites_cases db recipe_id user_id)
    as [[_ E]|[(_ & _ & _ & E)|[(_ & _ & _ & E)|(_ & _ & _ & E)]]];
    rewrite E; simpl; trivial.
  destruct H as [H1 H2 H3 H4]. split; simpl; trivial.
  now apply NoDup_filter.
Qed.

Section AccountsFacts.

Variable pwd_context : CryptContext.

Lemma register_user_consistent user salt now db :
  consistent db ->
  consistent (snd (register_user pwd_context user salt now db)).
Proof.
  intros H. unfold register_user.
  destruct (first _ (users db)) as [u|] eqn:E; simpl; trivial.
  destruct H as [H1 H2 H3 H4]. split; simpl; trivial.
  - rewrite map_app. simpl. apply NoDup_snoc; [exact H1|].
    apply next_id_not_in.
  - rewrite map_app. simpl. apply NoDup_snoc; [exact H2|].
    apply first_username_None in E. intros Hin. apply E.
    apply in_map_iff in Hin. destruct Hin as (u & Hu & Hin). now exists u.
Qed.

Lemma serve_consistent req db :
  consistent db -> consistent (serve pwd_context req db).
Proof.
  destruct req; simpl; trivial.
  - apply create_recipe_consistent.
  - apply register_user_consistent.
  - apply add_to_favorites_consistent.
  - apply remove_from_favorites_consistent.
Qed.

Lemma run_consistent reqs db :
  consistent db -> consistent (run pwd_context reqs db).
Proof.
  unfold run. revert db. induction reqs as [|req reqs IH]; simpl; intros db H.
  - exact H.
  - apply IH. now apply serve_consistent.
Qed.

(** Every state the application can reach from the empty tables. *)
Lemma reachable_consistent reqs : consistent (run pwd_context reqs init_db).
Proof. apply run_consistent, init_db_consistent. Qed.

(** No handler touches a row of [users] or [recipes] that exists. *)
Lemma serve_rows_kept req db :
  exists new_users new_recipes,
    users (serve pwd_context req db) = users db ++ new_users
    /\ recipes (serve pwd_context req db) = recipes db ++ new_recipes.
Proof.
  destruct req as [| | |recipe now|user salt now| |rid uid|rid uid|]; simpl;
    try (exists [], []; now rewrite !app_nil_r).
  - eexists [], [_]. now rewrite app_nil_r.
  - unfold register_user. destruct (first _ (users db)); simpl.
    + exists [], []. now rewrite !app_nil_r.
    + eexists [_], []. now rewrite app_nil_r.
  - exists [], []. rewrite !app_nil_r.
    by_cases (add_to_favorites_cases db rid uid); auto.
  - exists [], []. rewrite !app_nil_r.
    by_cases (remove_from_favorites_cases db rid uid); auto.
Qed.

End AccountsFacts.

(** ** Favorites: the at-most-once invariant *)

Lemma add_to_favorites_at_most_once recipe_id user_id db :
  at_most_once db -> at_most_once (snd (add_to_favorites recipe_id user_id db)).
Proof.
  rewrite !at_most_once_NoDup. intros H.
  destruct (add_to_favorites_cases db recipe_id user_id)
    as [[_ E]|[(_ & _ & _ & E)|(_ & _ & Hn & E)]]; rewrite E; simpl; trivial.
  now apply NoDup_snoc.
Qed.

Lemma remove_from_favorites_at_most_once recipe_id user_id db :
  at_most_once db ->
  at_most_once (snd (remove_from_favorites recipe_id user_id db)).
Proof.
  rewrite !at_most_once_NoDup. intros H.
  destruct (remove_from_favorites_cases db recipe_id user_id)
    as [[_ E]|[(_ & _ & _ & E)|[(_ & _ & _ & E)|(_ & _ & _ & E)]]];
    rewrite E; simpl; trivial.
  now apply NoDup_filter.
Qed.

Lemma serve_at_most_once ctx req db :
  at_most_once db -> at_most_once (serve ctx req db).
Proof.
  destruct req; simpl; trivial.
  - unfold register_user. now destruct (first _ (users db)).
  - apply add_to_favorites_at_most_once.
  - apply remove_from_favorites_at_most_once.
Qed.

(** C1: in every state reached from the empty tables by serving requests
    one after the other, each (user, recipe) pair is held by at most one row
    of the join table; every request preserves the property, and
    add-favorite changes the table only after its membership test found the
    pair absent. *)
Theorem favorites_pair_at_most_once (ctx : CryptContext) :
  (forall req db, at_most_once db -> at_most_once (serve ctx req db))
  /\ (forall reqs user_id recipe_id,
         (occurrences (run ctx reqs init_db) user_id recipe_id <= 1)%nat)
  /\ (forall db recipe_id user_id,
         favorites (snd (add_to_favorites recipe_id user_id db)) <> favorites db ->
         ~ is_favorite db user_id recipe_id).
Proof.
  split; [|split].
  - intros req db. apply serve_at_most_once.
  - intros reqs.
    assert (H : at_most_once init_db) by (intros u r; cbv; lia).
    revert H. unfold run. generalize init_db.
    induction reqs as [|req reqs IH]; simpl; intros db H; [exact H|].
    apply IH. now apply serve_at_most_once.
  - intros db recipe_id user_id Hch.
    destruct (add_to_favorites_cases db recipe_id user_id)
      as [[_ E]|[(_ & _ & _ & E)|(_ & _ & Hn & E)]];
      rewrite E in Hch; simpl in Hch; congruence.
Qed.

(** ** The populated states are consistent *)

Lemma demo_db_consistent : consistent demo_db.
Proof. split; simpl; repeat constructor; simpl; tauto. Qed.

Lemma demo_db_fav_consistent : consistent demo_db_fav.
Proof. split; simpl; repeat constructor; simpl; tauto. Qed.

Lemma demo_resolves_user : resolves_user demo_db 1.
Proof. exists alice. simpl. auto. Qed.

Lemma demo_resolves_recipe : resolves_recipe demo_db 1.
Proof. exists tomato_soup. simpl. auto. Qed.

(** ** Favorites: adding *)

(** C3: for an existing user and an existing recipe, adding a pair that is
    already a favorite answers "Already favorited" with status 200 and
    leaves the state as it was (no row added, the same favorites count);
    hence a second add after a first one is such a no-op, the user's
    favorites count is that after the single add, and, the pair being held
    at most once before, it is then held by exactly one row. *)
Theorem add_to_favorites_idempotent db user_id recipe_id :
  resolves_user db user_id -> resolves_recipe db recipe_id ->
  (is_favorite db user_id recipe_id ->
     add_to_favorites recipe_id user_id db
     = (Ok 200 {| message := "Already favorited" |}, db))
  /\ (let once := add_to_favorites recipe_id user_id db in
      let twice := add_to_favorites recipe_id user_id (snd once) in
      twice = (Ok 200 {| message := "Already favorited" |}, snd once)
      /\ favorites_count (snd twice) user_id
         = favorites_count (snd once) user_id
      /\ (at_most_once db ->
          occurrences (snd twice) user_id recipe_id = 1%nat)).
Proof.
  intros Ru Rr.
  assert (Hdup : forall d, resolves_user d user_id ->
                           resolves_recipe d recipe_id ->
                           is_favorite d user_id recipe_id ->
                           add_to_favorites recipe_id user_id d
                           = (Ok 200 {| message := "Already favorited" |}, d)).
  { intros d Rud Rrd Hf.
    destruct (add_to_favorites_cases d recipe_id user_id)
      as [[[N|N] _]|[(_ & _ & _ & E)|(_ & _ & Hn & _)]];
      [contradiction | contradiction | exact E | contradiction]. }
  split; [now apply Hdup|]. cbv zeta.
  set (db1 := snd (add_to_favorites recipe_id user_id db)).
  assert (H1 : is_favorite db1 user_id recipe_id
               /\ resolves_user db1 user_id /\ resolves_recipe db1 recipe_id).
  { subst db1.
    destruct (add_to_favorites_cases db recipe_id user_id)
      as [[[N|N] _]|[(_ & _ & Hf & E)|(_ & _ & Hn & E)]];
      try contradiction; rewrite E; simpl; splits; trivial.
    unfold is_favorite. simpl. apply in_or_app. right. now left. }
  destruct H1 as (Hfav1 & Ru1 & Rr1).
  rewrite (Hdup db1 Ru1 Rr1 Hfav1). simpl. splits; trivial.
  intros Hamo.
  assert (Hle : (occurrences db1 user_id recipe_id <= 1)%nat)
    by now apply add_to_favorites_at_most_once.
  assert (occurrences db1 user_id recipe_id > 0)%nat
    by (apply count_occ_In; exact Hfav1).
  lia.
Qed.

Lemma add_to_favorites_idempotent_witness :
  add_to_favorites 1 1 (snd (add_to_favorites 1 1 demo_db))
  = (Ok 200 {| message := "Already favorited" |},
     snd (add_to_favorites 1 1 demo_db))
  /\ favorites_count
       (snd (add_to_favorites 1 1 (snd (add_to_favorites 1 1 demo_db)))) 1
     = favorites_count (snd (add_to_favorites 1 1 demo_db)) 1
  /\ occurrences
       (snd (add_to_favorites 1 1 (snd (add_to_favorites 1 1 demo_db)))) 1 1
     = 1%nat.
Proof.
  destruct (add_to_favorites_idempotent demo_db 1 1
              demo_resolves_user demo_resolves_recipe)
    as (_ & H1 & H2 & H3).
  splits; [exact H1 | exact H2 |].
  apply H3. apply at_most_once_NoDup. simpl. constructor.
Defined.

Example add_twice_counts_once :
  favorites_count
    (snd (add_to_favorites 1 1 (snd (add_to_favorites 1 1 demo_db)))) 1
  = 1%nat.
Proof. reflexivity. Qed.

(** ** Favorites: the NotFound outcome *)

Lemma add_to_favorites_error_iff db recipe_id user_id :
  is_error (fst (add_to_favorites recipe_id user_id db)) = true
  <-> ~ resolves_user db user_id \/ ~ resolves_recipe db recipe_id.
Proof.
  by_cases (add_to_favorites_cases db recipe_id user_id);
    rewrite ?lookup_failure_is_error;
    split; intros; trivial; try discriminate; tauto.
Qed.

Lemma lookup_failure_in_range recipe_id user_id db :
  in_int64 user_id = true -> in_int64 recipe_id = true ->
  lookup_failure recipe_id user_id db
  = HTTPException 404 "User or Recipe not found".
Proof.
  intros Hu Hr. unfold lookup_failure, lookup_both, first_by_id.
  rewrite Hu, Hr.
  destruct (first _ (users db)); destruct (first _ (recipes db)); reflexivity.
Qed.

Lemma lookup_failure_overflow recipe_id user_id db :
  (~ resolves_user db user_id /\ in_int64 user_id = false)
  \/ (~ resolves_recipe db recipe_id /\ in_int64 recipe_id = false) ->
  lookup_failure recipe_id user_id db = Unhandled "OverflowError".
Proof.
  unfold lookup_failure, lookup_both.
  intros [[N R]|[N R]].
  - apply first_user_None in N.
    now rewrite (first_by_id_unresolved _ _ _ N), R.
  - apply first_recipe_None in N.
    rewrite (first_by_id_unresolved _ _ _ N), R.
    now destruct (first_by_id User.id user_id (users db)).
Qed.

Lemma get_favorites_cases db user_id :
  (exists user, In user (users db) /\ User.id user = user_id
                /\ get_favorites user_id db
                   = Ok 200 (map RecipeRead_from_orm (user_favorites db user)))
  \/ (~ resolves_user db user_id
      /\ get_favorites user_id db
         = if in_int64 user_id then HTTPException 404 "User not found"
           else Unhandled "OverflowError").
Proof.
  unfold get_favorites.
  destruct (first_by_id_user db user_id) as [(user & -> & Hu & Eu & _)|[N ->]].
  - left. now exists user.
  - right. split; [exact N|]. now destruct (in_int64 user_id).
Qed.

(** C4, the claim as stated fails: the user id 2^63 resolves to no user of
    the one-user state, yet add-favorite, remove-favorite and list-favorites
    do not answer NotFound: the driver refuses the integer and the
    [OverflowError] escapes as status 500. *)
Lemma favorites_not_found_overflow_counterexample :
  ~ resolves_user demo_db (2 ^ 63)
  /\ fst (add_to_favorites 1 (2 ^ 63) demo_db) = Unhandled "OverflowError"
  /\ fst (remove_from_favorites 1 (2 ^ 63) demo_db)
     = Unhandled "OverflowError"
  /\ get_favorites (2 ^ 63) demo_db = Unhandled "OverflowError"
  /\ status_code_of (get_favorites (2 ^ 63) demo_db) = 500.
Proof.
  splits; try reflexivity.
  intros (u & [<-|[]] & E). discriminate E.
Qed.

(** C4, amended: for a user id and a recipe id within the signed 64-bit
    range, add-favorite and remove-favorite raise NotFound (status 404)
    exactly when one of the two ids resolves to no row, and list-favorites
    raises NotFound exactly when the user id resolves to no row.  An id that
    resolves to no row and lies outside that range makes the call fail with
    the escaped [OverflowError] (status 500) instead.  Add-favorite and
    list-favorites fail in no other case; remove-favorite fails besides
    only on a pair that more than one row holds, which no reachable state
    has.  Whenever add-favorite or remove-favorite fails, with whichever
    error, the state after the call is the state before it; list-favorites
    never changes the state. *)
Theorem favorites_not_found (ctx : CryptContext) db recipe_id user_id :
  let add := add_to_favorites recipe_id user_id db in
  let remove := remove_from_favorites recipe_id user_id db in
  let listing := get_favorites user_id db in
  let not_found : Response Message :=
    HTTPException 404 "User or Recipe not found" in
  let unresolved :=
    ~ resolves_user db user_id \/ ~ resolves_recipe db recipe_id in
  (in_int64 user_id = true -> in_int64 recipe_id = true ->
   (fst add = not_found <-> unresolved)
   /\ (fst remove = not_found <-> unresolved))
  /\ (in_int64 user_id = true ->
      (listing = HTTPException 404 "User not found"
       <-> ~ resolves_user db user_id))
  /\ ((~ resolves_user db user_id /\ in_int64 user_id = false)
      \/ (~ resolves_recipe db recipe_id /\ in_int64 recipe_id = false) ->
      fst add = Unhandled "OverflowError"
      /\ fst remove = Unhandled "OverflowError")
  /\ (~ resolves_user db user_id -> in_int64 user_id = false ->
      listing = Unhandled "OverflowError")
  /\ (is_error (fst add) = true <-> unresolved)
  /\ (is_error (fst remove) = true
      <-> unresolved \/ (1 < occurrences db user_id recipe_id)%nat)
  /\ (is_error listing = true <-> ~ resolves_user db user_id)
  /\ (is_error (fst add) = true -> snd add = db)
  /\ (is_error (fst remove) = true -> snd remove = db)
  /\ serve ctx (GET_user_favorites user_id) db = db.
Proof.
  cbv zeta. splits.
  - intros Hu Hr.
    pose proof (lookup_failure_in_range recipe_id user_id db Hu Hr) as L.
    split.
    + by_cases (add_to_favorites_cases db recipe_id user_id);
        rewrite ?L; split; intros; trivial; try discriminate; tauto.
    + by_cases (remove_from_favorites_cases db recipe_id user_id);
        rewrite ?L; split; intros; trivial; try discriminate; tauto.
  - intros Hu.
    destruct (get_favorites_cases db user_id) as [(u & Hin & E & ->)|[N ->]].
    + split; [discriminate|]. intros N. exfalso. apply N. now exists u.
    + rewrite Hu. tauto.
  - intros O. pose proof (lookup_failure_overflow recipe_id user_id db O) as L.
    assert (U : ~ resolves_user db user_id \/ ~ resolves_recipe db recipe_id)
      by tauto.
    split.
    + by_cases (add_to_favorites_cases db recipe_id user_id);
        trivial; tauto.
    + by_cases (remove_from_favorites_cases db recipe_id user_id);
        trivial; tauto.
  - intros N R.
    destruct (get_favorites_cases db user_id) as [(u & Hin & E & _)|[_ ->]].
    + exfalso. apply N. now exists u.
    + now rewrite R.
  - apply add_to_favorites_error_iff.
  - by_cases (remove_from_favorites_cases db recipe_id user_id);
      rewrite ?lookup_failure_is_error.
    + tauto.
    + split; [discriminate|]. intros [U|M]; [tauto | lia].
    + split; [discriminate|]. intros [U|M]; [tauto|].
      exfalso. apply F. apply (count_occ_In pair_eq_dec).
      unfold occurrences in M. lia.
    + tauto.
  - destruct (get_favorites_cases db user_id) as [(u & Hin & E & ->)|[N ->]].
    + split; [discriminate|]. intros N. exfalso. apply N. now exists u.
    + destruct (in_int64 user_id); simpl; tauto.
  - by_cases (add_to_favorites_cases db recipe_id user_id);
      intros; trivial; discriminate.
  - by_cases (remove_from_favorites_cases db recipe_id user_id);
      intros; trivial; discriminate.
  - reflexivity.
Qed.

Example list_favorites_of_unknown_user :
  get_favorites 999 demo_db_fav = HTTPException 404 "User not found".
Proof. reflexivity. Qed.

(** ** Favorites: removing *)

(** C5: for an existing user and an existing recipe in a consistent state,
    removing a pair that is a favorite answers "Recipe removed from
    favorites" with status 200, after which the pair is no favorite, every
    other pair is held as before, the user's favorites count is one less,
    and the user and recipe tables are as before; removing a pair that is
    no favorite answers "Recipe not in favorites" with status 200 and leaves
    the state as it was. *)
Theorem remove_from_favorites_outcomes db user_id recipe_id :
  consistent db ->
  resolves_user db user_id -> resolves_recipe db recipe_id ->
  let remove := remove_from_favorites recipe_id user_id db in
  (is_favorite db user_id recipe_id ->
     fst remove = Ok 200 {| message := "Recipe removed from favorites" |}
     /\ ~ is_favorite (snd remove) user_id recipe_id
     /\ (forall p, p <> (user_id, recipe_id) ->
                   (In p (favorites (snd remove)) <-> In p (favorites db)))
     /\ S (favorites_count (snd remove) user_id) = favorites_count db user_id
     /\ users (snd remove) = users db
     /\ recipes (snd remove) = recipes db)
  /\ (~ is_favorite db user_id recipe_id ->
      remove = (Ok 200 {| message := "Recipe not in favorites" |}, db)).
Proof.
  intros Hc Ru Rr. cbv zeta.
  destruct (remove_from_favorites_cases db recipe_id user_id)
    as [[[N|N] _]|[(_ & _ & [Hf _] & E)
                  |[(_ & _ & Hn & E)|(_ & _ & [Hf Hm] & E)]]];
    try contradiction.
  3:{ exfalso. pose proof (favorites_unique db Hc) as Hnd.
      apply at_most_once_NoDup in Hnd. specialize (Hnd user_id recipe_id).
      lia. }
  all: rewrite E; simpl.
  2:{ split; [intros F; contradiction | reflexivity]. }
  split; [|intros F; contradiction].
  intros _. splits; trivial.
  - unfold is_favorite. simpl. rewrite in_delete_favorite. tauto.
  - intros p Hp. rewrite in_delete_favorite. tauto.
  - destruct (resolves_user_first db user_id Ru) as (user & Eu & _ & Hid).
    destruct Rr as (recipe & Hr & Hrid).
    unfold favorites_count. simpl. rewrite Eu. subst user_id recipe_id.
    apply (user_favorites_delete_length db _ user recipe);
      trivial; apply Hc.
Qed.

Lemma remove_from_favorites_outcomes_witness :
  fst (remove_from_favorites 1 1 demo_db_fav)
  = Ok 200 {| message := "Recipe removed from favorites" |}
  /\ S (favorites_count (snd (remove_from_favorites 1 1 demo_db_fav)) 1)
     = favorites_count demo_db_fav 1
  /\ remove_from_favorites 1 1 demo_db
     = (Ok 200 {| message := "Recipe not in favorites" |}, demo_db).
Proof.
  assert (Ru : resolves_user demo_db_fav 1) by (exists alice; simpl; auto).
  assert (Rr : resolves_recipe demo_db_fav 1)
    by (exists tomato_soup; simpl; auto).
  destruct (remove_from_favorites_outcomes demo_db_fav 1 1
              demo_db_fav_consistent Ru Rr) as [Hin _].
  destruct (remove_from_favorites_outcomes demo_db 1 1
              demo_db_consistent demo_resolves_user demo_resolves_recipe)
    as [_ Hout].
  destruct (Hin (or_introl eq_refl)) as (H1 & _ & _ & H4 & _).
  splits; [exact H1 | exact H4 |].
  apply Hout. intros [].
Defined.

Example remove_after_add_counts_zero :
  favorites_count
    (snd (remove_from_favorites 1 1 (snd (add_to_favorites 1 1 demo_db)))) 1
  = 0%nat
  /\ fst (remove_from_favorites 1 1
            (snd (remove_from_favorites 1 1 (snd (add_to_favorites 1 1 demo_db)))))
     = Ok 200 {| message := "Recipe not in favorites" |}.
Proof. split; reflexivity. Qed.

(** ** Frame: what the handlers leave alone *)

(** C9: serving a request keeps every existing row of the user and recipe
    tables (rows are only ever appended); add-favorite and remove-favorite
    leave both tables as they are, hold every pair other than their own as
    often as before, and list the same favorites for every other user. *)
Theorem favorites_frame (ctx : CryptContext) db :
  (forall req, exists new_users new_recipes,
      users (serve ctx req db) = users db ++ new_users
      /\ recipes (serve ctx req db) = recipes db ++ new_recipes)
  /\ (forall recipe_id user_id,
         let db' := snd (add_to_favorites recipe_id user_id db) in
         users db' = users db /\ recipes db' = recipes db
         /\ (forall u r, (u, r) <> (user_id, recipe_id) ->
                         occurrences db' u r = occurrences db u r)
         /\ (forall u, User.id u <> user_id ->
                       user_favorites db' u = user_favorites db u))
  /\ (forall recipe_id user_id,
         let db' := snd (remove_from_favorites recipe_id user_id db) in
         users db' = users db /\ recipes db' = recipes db
         /\ (forall u r, (u, r) <> (user_id, recipe_id) ->
                         occurrences db' u r = occurrences db u r)
         /\ (forall u, User.id u <> user_id ->
                       user_favorites db' u = user_favorites db u)).
Proof.
  split; [|split].
  - intros req. apply serve_rows_kept.
  - intros recipe_id user_id. cbv zeta.
    by_cases (add_to_favorites_cases db recipe_id user_id); auto.
    repeat apply conj; trivial.
    + intros u r Hp. unfold occurrences. simpl.
      now apply count_occ_append_other.
    + intros u Hu.
      now apply (user_favorites_append_other db _ u user_id recipe_id).
  - intros recipe_id user_id. cbv zeta.
    by_cases (remove_from_favorites_cases db recipe_id user_id); auto.
    repeat apply conj; trivial.
    + intros u r Hp. unfold occurrences. simpl.
      now apply count_occ_delete_other.
    + intros u Hu.
      now apply (user_favorites_delete_other db _ u user_id recipe_id).
Qed.

(** ** Recipes: create, then get *)

Lemma get_recipe_cases db recipe_id :
  (exists recipe,
      first (fun r => Recipe.id r =? recipe_id) (recipes db) = Some recipe
      /\ In recipe (recipes db) /\ Recipe.id recipe = recipe_id
      /\ get_recipe recipe_id db = Ok 200 (RecipeRead_from_orm recipe))
  \/ (~ resolves_recipe db recipe_id
      /\ get_recipe recipe_id db
         = if in_int64 recipe_id then HTTPException 404 "Recipe not found"
           else Unhandled "OverflowError").
Proof.
  unfold get_recipe, first_by_id.
  destruct (first (fun r => Recipe.id r =? recipe_id) (recipes db))
    as [r|] eqn:E.
  - left. exists r. destruct (first_Some _ _ _ E) as [Hin Hid].
    apply Z.eqb_eq in Hid. splits; trivial.
  - right. split; [now apply first_recipe_None|].
    now destruct (in_int64 recipe_id).
Qed.

(** C8, the claim as stated fails: the id 2^63 resolves to no recipe of the
    one-recipe state, yet get-by-id does not answer NotFound: the driver
    refuses the integer and the [OverflowError] escapes as status 500. *)
Lemma get_recipe_overflow_counterexample :
  ~ resolves_recipe demo_db (2 ^ 63)
  /\ get_recipe (2 ^ 63) demo_db = Unhandled "OverflowError"
  /\ status_code_of (get_recipe (2 ^ 63) demo_db) = 500.
Proof.
  splits; try reflexivity.
  intros (r & [<-|[]] & E). discriminate E.
Qed.

(** C8, amended: creating a recipe always answers status 201 with the
    input's fields and an id assigned by the store, whatever titles are
    stored already; the id resolved to no recipe before; get-by-id on it
    then answers status 200 with those same fields and id; and for an id
    within the signed 64-bit range get-by-id raises NotFound (status 404)
    exactly when the id resolves to no recipe, while for an id outside the
    range that resolves to no recipe it fails with the escaped
    [OverflowError] (status 500). *)
Theorem create_recipe_then_get_recipe recipe now db :
  let new_id := next_id (map Recipe.id (recipes db)) in
  let created :=
    {| rr_title := rc_title recipe;
       rr_description := rc_description recipe;
       rr_ingredients := rc_ingredients recipe;
       rr_instructions := rc_instructions recipe;
       rr_image_url := rc_image_url recipe;
       rr_category := rc_category recipe;
       rr_id := new_id |} in
  fst (create_recipe recipe now db) = Ok 201 created
  /\ ~ resolves_recipe db new_id
  /\ get_recipe new_id (snd (create_recipe recipe now db)) = Ok 200 created
  /\ (forall recipe_id db0,
         in_int64 recipe_id = true ->
         (~ resolves_recipe db0 recipe_id
          <-> get_recipe recipe_id db0 = HTTPException 404 "Recipe not found"))
  /\ (forall recipe_id db0,
         in_int64 recipe_id = false ->
         (~ resolves_recipe db0 recipe_id
          <-> get_recipe recipe_id db0 = Unhandled "OverflowError")).
Proof.
  cbv zeta.
  assert (Hfresh : ~ resolves_recipe db (next_id (map Recipe.id (recipes db)))).
  { intros (r & Hr & E).
    apply (next_id_not_in (map Recipe.id (recipes db))).
    rewrite <- E. now apply in_map. }
  splits; trivial.
  - unfold get_recipe, create_recipe. simpl.
    match goal with |- context [first_by_id _ ?i (?rows ++ [?row])] =>
      assert (F : first (fun r => Recipe.id r =? i) (rows ++ [row]) = Some row)
    end.
    { apply first_appended.
      - intros y Hy. apply Z.eqb_neq. intros E. apply Hfresh. now exists y.
      - simpl. apply Z.eqb_refl. }
    now rewrite (first_by_id_resolved _ _ _ _ F).
  - intros recipe_id db0 R.
    destruct (get_recipe_cases db0 recipe_id)
      as [(r & _ & Hin & Hid & ->)|[N ->]].
    + split; [|discriminate]. intros N. exfalso. apply N. now exists r.
    + rewrite R. tauto.
  - intros recipe_id db0 R.
    destruct (get_recipe_cases db0 recipe_id)
      as [(r & _ & Hin & Hid & ->)|[N ->]].
    + split; [|discriminate]. intros N. exfalso. apply N. now exists r.
    + rewrite R. tauto.
Qed.

Example create_tomato_soup_then_get :
  let db := snd (create_recipe
                   (mkRecipeCreate "Tomato Soup" None None None None None) 7
                   demo_db) in
  get_recipe 2 db
  = Ok 200 (mkRecipeRead "Tomato Soup" None None None None None 2)
  /\ get_recipe 3 db = HTTPException 404 "Recipe not found".
Proof. split; reflexivity. Qed.

(** ** Accounts *)

Section AccountsClaims.

Variable ctx : CryptContext.

(** The statements below speak of the library's own [verify] and [hash],
    not of the handlers' wrappers around them. *)
Lemma authenticate_user_Some db username password u :
  NoDup (map User.username (users db)) ->
  authenticate_user ctx db username password = Some u
  <-> In u (users db) /\ User.username u = username
      /\ verify ctx password (User.hashed_password u) = true.
Proof.
  intros Hnd. unfold authenticate_user, verify_password. split.
  - destruct (first _ (users db)) as [user|] eqn:E; [|discriminate].
    destruct (first_Some _ _ _ E) as [Hin Hname].
    apply String.eqb_eq in Hname.
    destruct (verify ctx password (User.hashed_password user)) eqn:V;
      simpl; [|discriminate].
    intros [= <-]. auto.
  - intros (Hin & Hname & V). subst username.
    rewrite (first_unique User.username String.eqb (users db) u
               String.eqb_eq Hnd Hin).
    now rewrite V.
Qed.

(** C6: in a state with unique usernames, authenticate returns a user
    exactly when that user is stored under the given username and the
    library verifies the supplied password against its stored hash; login
    then answers status 200 with the demo token of that user; and in every
    other case, unknown username or rejected password alike, login raises
    the one exception with status 401 and detail "Incorrect username or
    password". *)
Theorem authenticate_user_outcomes db username password :
  consistent db ->
  let failure : Response Token :=
    HTTPException 401 "Incorrect username or password" in
  (forall u, authenticate_user ctx db username password = Some u
             <-> In u (users db) /\ User.username u = username
                 /\ verify ctx password (User.hashed_password u) = true)
  /\ (forall u, In u (users db) -> User.username u = username ->
                verify ctx password (User.hashed_password u) = true ->
                authenticate_user ctx db username password = Some u
                /\ login ctx username password db
                   = Ok 200 {| access_token :=
                                 (username ++ "-token-demo")%string;
                               token_type := "bearer" |})
  /\ (authenticate_user ctx db username password = None ->
      login ctx username password db = failure)
  /\ (~ username_taken db username ->
      authenticate_user ctx db username password = None
      /\ login ctx username password db = failure)
  /\ (forall u, In u (users db) -> User.username u = username ->
                verify ctx password (User.hashed_password u) = false ->
                authenticate_user ctx db username password = None
                /\ login ctx username password db = failure).
Proof.
  intros Hc. cbv zeta.
  assert (Hnd := usernames_unique db Hc).
  assert (Hnone : authenticate_user ctx db username password = None ->
                  login ctx username password db
                  = HTTPException 401 "Incorrect username or password").
  { intros E. unfold login. now rewrite E. }
  splits.
  - intros u. now apply authenticate_user_Some.
  - intros u Hin Hname V.
    assert (E : authenticate_user ctx db username password = Some u)
      by (apply authenticate_user_Some; auto).
    split; [exact E|]. unfold login. now rewrite E, Hname.
  - exact Hnone.
  - intros Hno.
    assert (E : authenticate_user ctx db username password = None).
    { unfold authenticate_user.
      apply first_username_None in Hno. now rewrite Hno. }
    split; [exact E | now apply Hnone].
  - intros u Hin Hname V.
    assert (E : authenticate_user ctx db username password = None).
    { destruct (authenticate_user ctx db username password) as [u'|] eqn:E;
        [|reflexivity].
      apply (authenticate_user_Some db username password u' Hnd) in E.
      destruct E as (Hin' & Hname' & V').
      assert (u' = u).
      { assert (F : first (fun y => String.eqb (User.username y) username)
                      (users db) = Some u).
        { rewrite <- Hname.
          now apply (first_unique User.username String.eqb (users db) u
                       String.eqb_eq). }
        rewrite <- Hname' in F.
        rewrite (first_unique User.username String.eqb (users db) u'
                   String.eqb_eq Hnd Hin') in F. congruence. }
      subst u'. congruence. }
    split; [exact E | now apply Hnone].
Qed.

(** C7: register raises, with status 400, exactly when the username is
    taken already, and then leaves the state as it was; otherwise it
    appends one user, under a new id, whose stored credential is the hash
    the library made of the password with the salt it drew, and answers
    status 200 with the username and the new id only.  The stored
    credential of the new user is not the password whenever the library's
    hash of that password is not the password itself; the answer is the
    same whatever the password, and two registrations whose passwords the
    library hashes alike leave the same state. *)
Theorem register_user_outcomes user salt now db :
  let out := register_user ctx user salt now db in
  let name := uc_username user in
  (is_error (fst out) = true <-> username_taken db name)
  /\ (username_taken db name ->
      out = (HTTPException 400 "Username already registered", db))
  /\ (~ username_taken db name ->
      exists new_user,
        out = (Ok 200 {| ur_username := name; ur_id := User.id new_user |},
               {| users := users db ++ [new_user];
                  recipes := recipes db;
                  favorites := favorites db |})
        /\ ~ resolves_user db (User.id new_user)
        /\ User.username new_user = name
        /\ User.hashed_password new_user = hash ctx (uc_password user) salt)
  /\ (hash ctx (uc_password user) salt <> uc_password user ->
      forall u, In u (users (snd out)) -> ~ In u (users db) ->
                User.hashed_password u <> uc_password user)
  /\ (forall password' salt',
         fst (register_user ctx (mkUserCreate name password') salt' now db)
         = fst out)
  /\ (forall password' salt',
         hash ctx password' salt' = hash ctx (uc_password user) salt ->
         snd (register_user ctx (mkUserCreate name password') salt' now db)
         = snd out).
Proof.
  cbv zeta. unfold register_user, get_password_hash. simpl.
  destruct (first _ (users db)) as [u|] eqn:E.
  - assert (T : username_taken db (uc_username user)).
    { destruct (first_Some _ _ _ E) as [Hin Hn]. apply String.eqb_eq in Hn.
      now exists u. }
    simpl. splits; trivial; try tauto.
  - assert (T : ~ username_taken db (uc_username user))
      by now apply first_username_None.
    simpl. splits; trivial.
    + split; [discriminate | contradiction].
    + contradiction.
    + intros _. eexists. splits; try reflexivity; simpl; trivial.
      intros (u & Hu & Hid).
      apply (next_id_not_in (map User.id (users db))).
      rewrite <- Hid. now apply in_map.
    + intros Hh u Hin Hout. apply in_app_or in Hin.
      destruct Hin as [Hin|[<-|[]]]; [contradiction | exact Hh].
    + intros password' salt' Hh. now rewrite Hh.
Qed.

End AccountsClaims.

Lemma authenticate_user_outcomes_witness :
  authenticate_user demo_context demo_db "alice" "pw1" = Some alice
  /\ login demo_context "alice" "pw1" demo_db
     = Ok 200 {| access_token := "alice-token-demo"; token_type := "bearer" |}
  /\ login demo_context "alice" "wrong" demo_db
     = HTTPException 401 "Incorrect username or password"
  /\ login demo_context "bob" "anything" demo_db
     = HTTPException 401 "Incorrect username or password".
Proof.
  destruct (authenticate_user_outcomes demo_context demo_db "alice" "pw1"
              demo_db_consistent) as (_ & H2 & _).
  destruct (authenticate_user_outcomes demo_context demo_db "alice" "wrong"
              demo_db_consistent) as (_ & _ & _ & _ & H5).
  destruct (authenticate_user_outcomes demo_context demo_db "bob" "anything"
              demo_db_consistent) as (_ & _ & _ & H4 & _).
  destruct (H2 alice (or_introl eq_refl) eq_refl eq_refl) as [A L].
  splits.
  - exact A.
  - exact L.
  - apply (H5 alice); [simpl; auto | reflexivity | reflexivity].
  - apply H4. intros (u & [<-|[]] & E). discriminate E.
Defined.

Lemma register_user_outcomes_witness :
  register_user demo_context (mkUserCreate "bob" "pw2") "salt" 5 demo_db
  = (Ok 200 {| ur_username := "bob"; ur_id := 2 |},
     {| users := [alice; User.mk 2 "bob" "$hash$pw2" 5];
        recipes := recipes demo_db;
        favorites := favorites demo_db |})
  /\ (forall u,
         In u (users (snd (register_user demo_context
                             (mkUserCreate "bob" "pw2") "salt" 5 demo_db))) ->
         ~ In u (users demo_db) ->
         User.hashed_password u <> "pw2"%string)
  /\ register_user demo_context (mkUserCreate "alice" "pw2") "salt" 5 demo_db
     = (HTTPException 400 "Username already registered", demo_db).
Proof.
  destruct (register_user_outcomes demo_context (mkUserCreate "bob" "pw2")
              "salt" 5 demo_db) as (_ & _ & _ & H4 & _).
  destruct (register_user_outcomes demo_context (mkUserCreate "alice" "pw2")
              "salt" 5 demo_db) as (_ & H2 & _).
  splits.
  - reflexivity.
  - apply H4. discriminate.
  - apply H2. exists alice. simpl. auto.
Defined.

Example register_then_authenticate :
  let db := snd (register_user demo_context (mkUserCreate "alice" "pw1") "s" 0
                   init_db) in
  fst (register_user demo_context (mkUserCreate "alice" "pw2") "t" 1 db)
  = HTTPException 400 "Username already registered"
  /\ authenticate_user demo_context db "alice" "pw1"
     = Some (User.mk 1 "alice" "$hash$pw1" 0)
  /\ authenticate_user demo_context db "alice" "wrong" = None
  /\ authenticate_user demo_context db "bob" "anything" = None.
Proof. cbv zeta. splits; reflexivity. Qed.

(** ** Search: ordering *)

Lemma insert_desc_perm r l : Permutation (insert_desc r l) (r :: l).
Proof.
  induction l as [|x l IH]; simpl.
  - apply Permutation_refl.
  - destruct (Recipe.id x <=? Recipe.id r).
    + apply Permutation_refl.
    + eapply perm_trans; [apply perm_skip, IH | apply perm_swap].
Qed.

Lemma order_by_id_desc_perm l : Permutation (order_by_id_desc l) l.
Proof.
  induction l as [|x l IH]; simpl.
  - constructor.
  - eapply perm_trans; [apply insert_desc_perm | now apply perm_skip].
Qed.

Lemma insert_desc_sorted r l :
  StronglySorted newer_or_same l -> StronglySorted newer_or_same (insert_desc r l).
Proof.
  induction 1 as [|x l Hl IH Hx]; simpl.
  - repeat constructor.
  - destruct (Recipe.id x <=? Recipe.id r) eqn:E.
    + apply Z.leb_le in E. constructor; [now constructor|].
      constructor; [unfold newer_or_same; lia|].
      eapply Forall_impl; [|exact Hx]. unfold newer_or_same. intros; lia.
    + apply Z.leb_gt in E. constructor; [exact IH|].
      eapply Permutation_Forall.
      * apply Permutation_sym, insert_desc_perm.
      * constructor; [unfold newer_or_same; lia | exact Hx].
Qed.

Lemma order_by_id_desc_sorted l :
  StronglySorted newer_or_same (order_by_id_desc l).
Proof.
  induction l as [|x l IH]; simpl; [constructor | now apply insert_desc_sorted].
Qed.

Lemma sorted_unique_strict l :
  StronglySorted newer_or_same l -> NoDup (map Recipe.id l) ->
  StronglySorted newer l.
Proof.
  induction 1 as [|x l Hl IH Hx]; simpl; intros Hnd; constructor.
  - apply IH. now inversion Hnd.
  - inversion Hnd as [|k ks Hk _]; subst.
    rewrite Forall_forall in *. intros y Hy. specialize (Hx y Hy).
    unfold newer, newer_or_same in *.
    assert (Recipe.id y <> Recipe.id x)
      by (intros E; apply Hk; rewrite <- E; now apply in_map).
    lia.
Qed.

(** ** Search: the two filters as one selection *)

Lemma filter_all {A} (l : list A) : filter (fun _ => true) l = l.
Proof. induction l; simpl; congruence. Qed.

Lemma filter_twice {A} (p p' : A -> bool) (l : list A) :
  filter p' (filter p l) = filter (fun x => p x && p' x) l.
Proof.
  induction l as [|x l IH]; simpl; [reflexivity|].
  destruct (p x); simpl; [destruct (p' x)|]; now rewrite IH.
Qed.

Lemma filter_if_filter param p query :
  filter_if param p query
  = filter (fun r => match param with
                     | Some s => if truthy param then p s r else true
                     | None => true
                     end) query.
Proof.
  unfold filter_if. destruct param as [s|]; [|now rewrite filter_all].
  destruct (truthy (Some s)); [reflexivity | now rewrite filter_all].
Qed.

Lemma list_or_search_recipes_selected q category db :
  list_or_search_recipes q category db
  = if like_raises q (recipes db) then Unhandled "OperationalError"
    else Ok 200 (map RecipeRead_from_orm
                   (order_by_id_desc
                      (filter (selected q category) (recipes db)))).
Proof.
  unfold list_or_search_recipes.
  now rewrite !filter_if_filter, filter_twice.
Qed.

Lemma list_or_search_recipes_answer q category db body :
  list_or_search_recipes q category db = Ok 200 body ->
  like_raises q (recipes db) = false
  /\ body = map RecipeRead_from_orm
              (order_by_id_desc (filter (selected q category) (recipes db))).
Proof.
  rewrite list_or_search_recipes_selected.
  destruct (like_raises q (recipes db)); [discriminate|].
  now intros [= <-].
Qed.

Lemma category_is_iff c r :
  category_is c r = true <-> Recipe.category r = Some c.
Proof.
  unfold category_is. destruct (Recipe.category r) as [c'|].
  - rewrite String.eqb_eq. split; congruence.
  - split; discriminate.
Qed.

(** ** Search: LIKE against substring containment *)

Ltac each_character c :=
  destruct c as [[] [] [] [] [] [] [] []]; vm_compute.

Lemma lower_idempotent c : lower (lower c) = lower c.
Proof. each_character c; reflexivity. Qed.

Lemma lower_keeps_literal c :
  Ascii.eqb c "%" = false -> Ascii.eqb c "_" = false ->
  Ascii.eqb (lower c) "%" = false /\ Ascii.eqb (lower c) "_" = false.
Proof. each_character c; intros; split; trivial; discriminate. Qed.

Lemma like_percent rest text :
  like (String "%" rest) text = any_suffix (like rest) text.
Proof.
  induction text as [|c text IH].
  - reflexivity.
  - cbn [any_suffix]. rewrite <- IH. reflexivity.
Qed.

Lemma like_literal c rest text :
  Ascii.eqb c "%" = false -> Ascii.eqb c "_" = false ->
  like (String c rest) text
  = match text with
    | EmptyString => false
    | String d text' => Ascii.eqb (lower c) (lower d) && like rest text'
    end.
Proof. intros H1 H2. cbn [like]. now rewrite H1, H2. Qed.

Lemma like_percent_only text : like "%" text = true.
Proof.
  rewrite like_percent.
  induction text as [|c text IH]; simpl; [reflexivity | exact IH].
Qed.

Lemma contains_ci_any_suffix q s : contains_ci q s = any_suffix (prefix_ci q) s.
Proof. induction s as [|c s IH]; simpl; [reflexivity | now rewrite IH]. Qed.

Lemma any_suffix_sql_lower f g s :
  (forall t, f (sql_lower t) = g t) ->
  any_suffix f (sql_lower s) = any_suffix g s.
Proof.
  intros H. induction s as [|c s IH].
  - pose proof (H EmptyString) as H0. simpl in *. now rewrite H0.
  - pose proof (H (String c s)) as H0. simpl in *. now rewrite H0, IH.
Qed.

Lemma sql_lower_app a b :
  sql_lower (a ++ b)%string = (sql_lower a ++ sql_lower b)%string.
Proof. induction a as [|c a IH]; simpl; [reflexivity | now rewrite IH]. Qed.

(** A pattern of literal characters followed by ["%"] tests a prefix. *)
Lemma like_literals_then_percent q text :
  no_wildcard q = true ->
  like (sql_lower q ++ "%")%string (sql_lower text) = prefix_ci q text.
Proof.
  revert text. induction q as [|c q IH]; intros text Hq.
  - simpl. apply like_percent_only.
  - simpl in Hq. apply andb_true_iff in Hq. destruct Hq as [Hc Hq].
    apply andb_true_iff in Hc. destruct Hc as [H1 H2].
    apply negb_true_iff in H1, H2.
    destruct (lower_keeps_literal c H1 H2) as [L1 L2].
    change (sql_lower (String c q) ++ "%")%string
      with (String (lower c) (sql_lower q ++ "%")%string).
    rewrite (like_literal _ _ _ L1 L2).
    destruct text as [|d text]; simpl; [reflexivity|].
    now rewrite !lower_idempotent, IH.
Qed.

(** The meaning of a pattern, one leading character at a time. *)
Lemma any_suffix_iff f t :
  any_suffix f t = true <-> exists a b, t = (a ++ b)%string /\ f b = true.
Proof.
  split.
  - induction t as [|c t IH]; simpl; rewrite orb_true_iff.
    + intros [H|H]; [|discriminate]. now exists EmptyString, EmptyString.
    + intros [H|H]; [now exists EmptyString, (String c t)|].
      destruct (IH H) as (a & b & -> & Hb). now exists (String c a), b.
  - intros (a & b & -> & Hb). induction a as [|c a IH]; simpl.
    + destruct b; simpl; now rewrite Hb.
    + rewrite IH. apply orb_true_r.
Qed.

Lemma like_empty text : like "" text = true <-> text = EmptyString.
Proof. destruct text; simpl; split; congruence. Qed.

Lemma like_percent_iff rest text :
  like (String "%" rest) text = true
  <-> exists a b, text = (a ++ b)%string /\ like rest b = true.
Proof. rewrite like_percent. apply any_suffix_iff. Qed.

Lemma like_underscore_iff rest text :
  like (String "_" rest) text = true
  <-> exists c text', text = String c text' /\ like rest text' = true.
Proof.
  cbn [like]. simpl Ascii.eqb. destruct text as [|c text].
  - split; [discriminate | intros (c & t & E & _); discriminate].
  - split; [now exists c, text | intros (d & t & [= -> ->] & H); exact H].
Qed.

Lemma like_literal_iff c rest text :
  c <> "%"%char -> c <> "_"%char ->
  like (String c rest) text = true
  <-> exists d text', text = String d text' /\ lower d = lower c
                      /\ like rest text' = true.
Proof.
  intros H1 H2. apply Ascii.eqb_neq in H1, H2.
  rewrite (like_literal c rest text H1 H2). destruct text as [|d text].
  - split; [discriminate | intros (e & t & E & _); discriminate].
  - rewrite andb_true_iff, Ascii.eqb_eq. split.
    + intros [E H]. exists d, text. auto.
    + intros (e & t & [= -> ->] & E & H). auto.
Qed.

(** Reading a text as a C string, and its length in bytes, against the
    lowering of letters. *)
Lemma lower_zero c : Ascii.eqb (lower c) zero = Ascii.eqb c zero.
Proof. each_character c; reflexivity. Qed.

Lemma lower_width c :
  (N_of_ascii (lower c) <? 128)%N = (N_of_ascii c <? 128)%N.
Proof. each_character c; reflexivity. Qed.

Lemma c_string_sql_lower s : c_string (sql_lower s) = sql_lower (c_string s).
Proof.
  induction s as [|c s IH]; simpl; [reflexivity|].
  rewrite lower_zero. destruct (Ascii.eqb c zero); simpl; congruence.
Qed.

Lemma utf8_length_sql_lower s : utf8_length (sql_lower s) = utf8_length s.
Proof.
  induction s as [|c s IH]; simpl; [reflexivity|].
  now rewrite lower_width, IH.
Qed.

Lemma c_string_no_nul s : no_nul s = true -> c_string s = s.
Proof.
  induction s as [|c s IH]; simpl; [reflexivity|].
  rewrite andb_true_iff, negb_true_iff. intros [-> H]. now rewrite IH.
Qed.

Lemma no_nul_app a b :
  no_nul (a ++ b)%string = no_nul a && no_nul b.
Proof.
  induction a as [|c a IH]; simpl; [reflexivity|].
  now rewrite IH, andb_assoc.
Qed.

(** The handler's title filter, with the cuts at NUL made explicit. *)
Lemma title_ilike_like q r :
  title_ilike q r
  = like (sql_lower (c_string ("%" ++ q ++ "%")))
         (sql_lower (c_string (Recipe.title r))).
Proof.
  unfold title_ilike, ilike, sqlite_like. now rewrite !c_string_sql_lower.
Qed.

(** Without wildcards and NUL in the query text, the handler's title filter
    is the case-insensitive substring test on the title read as a C
    string. *)
Lemma title_ilike_contains_ci q r :
  no_wildcard q = true -> no_nul q = true ->
  title_ilike q r = contains_ci q (c_string (Recipe.title r)).
Proof.
  intros Hq Hn. rewrite title_ilike_like.
  rewrite c_string_no_nul
    by (rewrite !no_nul_app, Hn; reflexivity).
  change ("%" ++ q ++ "%")%string with (String "%" (q ++ "%")%string).
  change (sql_lower (String "%" (q ++ "%")%string))
    with (String "%" (sql_lower (q ++ "%")%string)).
  rewrite like_percent, sql_lower_app, contains_ci_any_suffix.
  apply any_suffix_sql_lower. intros t.
  now apply like_literals_then_percent.
Qed.

Lemma contains_ci_empty s : contains_ci "" s = true.
Proof. now destruct s. Qed.

Lemma selected_as_spec q category r :
  (forall s, q = Some s -> no_wildcard s = true /\ no_nul s = true) ->
  category <> Some ""%string ->
  no_nul (Recipe.title r) = true ->
  selected q category r = spec_selected q category r.
Proof.
  intros Hq Hc Ht. unfold selected, spec_selected. f_equal.
  - destruct q as [[|c s]|]; simpl; trivial.
    + now rewrite contains_ci_empty.
    + destruct (Hq _ eq_refl) as [H1 H2].
      rewrite title_ilike_contains_ci by assumption.
      now rewrite c_string_no_nul.
  - destruct category as [[|c s]|]; simpl; trivial. congruence.
Qed.

(** When the query fails: a non-empty query text whose pattern is longer
    than the limit, on a table that is not empty. *)
Lemma like_raises_iff q rows :
  like_raises q rows = true
  <-> exists s, q = Some s /\ s <> EmptyString
                /\ 50000 < utf8_length ("%" ++ s ++ "%")
                /\ rows <> [].
Proof.
  unfold like_raises, like_pattern_too_long, SQLITE_MAX_LIKE_PATTERN_LENGTH.
  destruct q as [s|].
  - rewrite utf8_length_sql_lower, !andb_true_iff, Z.ltb_lt. split.
    + intros [[T L] R]. exists s. splits; trivial.
      * intros ->. discriminate.
      * intros ->. discriminate.
    + intros (s' & [= <-] & Hs & L & R). splits; trivial.
      * destruct s; [contradiction | reflexivity].
      * destruct rows; [contradiction | reflexivity].
  - split; [discriminate | intros (s & E & _); discriminate].
Qed.

(** ** Search: the claims *)

(** C2, the claim as stated fails: on the one stored recipe "Tomato Soup"
    the query text "t_m" returns that recipe, because "_" in the LIKE
    pattern stands for any one character, although the title does not
    contain "t_m"; the search the spec describes returns nothing. *)
Lemma list_or_search_recipes_wildcard_counterexample :
  list_or_search_recipes (Some "t_m"%string) None demo_db
  = Ok 200 [RecipeRead_from_orm tomato_soup]
  /\ contains_ci "t_m" (Recipe.title tomato_soup) = false
  /\ spec_list_or_search_recipes (Some "t_m"%string) None demo_db = Ok 200 [].
Proof. splits; reflexivity. Qed.

(** C2, amended: list-or-search fails with the escaped "LIKE or GLOB
    pattern too complex" error (status 500) when the query text is
    non-empty, the pattern made of the query text between two "%" is longer
    than 50000 bytes and a recipe is stored.  Otherwise it answers status
    200 with exactly the stored recipes that the selection keeps, each once,
    in descending order of id (strictly descending when ids are unique).
    The selection keeps a recipe when its title matches that LIKE pattern,
    pattern and title each read up to their first NUL and compared without
    regard to the case of A to Z, "%" standing for any run of characters and
    "_" for any one character (filter applied when the query text is
    non-empty), and its category is equal to the given one (filter applied
    when the category is non-empty).  For a query text without "%", "_" and
    NUL the title filter is the case-insensitive substring test, and then,
    unless the category is the empty string or a stored title holds a NUL,
    the answer is the one the spec describes. *)
Theorem list_or_search_recipes_selects q category db :
  (like_raises q (recipes db) = true
   <-> exists s, q = Some s /\ s <> EmptyString
                 /\ 50000 < utf8_length ("%" ++ s ++ "%")
                 /\ recipes db <> [])
  /\ (like_raises q (recipes db) = true ->
      list_or_search_recipes q category db = Unhandled "OperationalError")
  /\ (like_raises q (recipes db) = false ->
      exists rows,
        list_or_search_recipes q category db
        = Ok 200 (map RecipeRead_from_orm rows)
        /\ Permutation rows (filter (selected q category) (recipes db))
        /\ StronglySorted newer_or_same rows
        /\ (NoDup (map Recipe.id (recipes db)) -> StronglySorted newer rows))
  /\ (forall c r, category_is c r = true <-> Recipe.category r = Some c)
  /\ (forall s r,
         title_ilike s r
         = like (sql_lower (c_string ("%" ++ s ++ "%")))
                (sql_lower (c_string (Recipe.title r))))
  /\ (forall text, like "" text = true <-> text = EmptyString)
  /\ (forall rest text,
         like (String "%" rest) text = true
         <-> exists a b, text = (a ++ b)%string /\ like rest b = true)
  /\ (forall rest text,
         like (String "_" rest) text = true
         <-> exists c text', text = String c text' /\ like rest text' = true)
  /\ (forall c rest text,
         c <> "%"%char -> c <> "_"%char ->
         like (String c rest) text = true
         <-> exists d text', text = String d text' /\ lower d = lower c
                             /\ like rest text' = true)
  /\ (forall s r, no_wildcard s = true -> no_nul s = true ->
                  title_ilike s r = contains_ci s (c_string (Recipe.title r)))
  /\ ((forall s, q = Some s -> no_wildcard s = true /\ no_nul s = true) ->
      category <> Some ""%string ->
      (forall r, In r (recipes db) -> no_nul (Recipe.title r) = true) ->
      like_raises q (recipes db) = false ->
      list_or_search_recipes q category db
      = spec_list_or_search_recipes q category db).
Proof.
  splits.
  - apply like_raises_iff.
  - intros R. now rewrite list_or_search_recipes_selected, R.
  - intros R.
    exists (order_by_id_desc (filter (selected q category) (recipes db))).
    splits.
    + now rewrite list_or_search_recipes_selected, R.
    + apply order_by_id_desc_perm.
    + apply order_by_id_desc_sorted.
    + intros Hnd. apply sorted_unique_strict.
      * apply order_by_id_desc_sorted.
      * eapply Permutation_NoDup.
        -- apply Permutation_map, Permutation_sym, order_by_id_desc_perm.
        -- now apply filter_ids_unique.
  - apply category_is_iff.
  - apply title_ilike_like.
  - apply like_empty.
  - apply like_percent_iff.
  - apply like_underscore_iff.
  - apply like_literal_iff.
  - apply title_ilike_contains_ci.
  - intros Hq Hc Ht R. rewrite list_or_search_recipes_selected, R.
    unfold spec_list_or_search_recipes. do 3 f_equal.
    apply filter_ext_in. intros r Hr. apply selected_as_spec; auto.
Qed.

Example underscore_is_one_character :
  like "a_c" "abc" = true /\ like "a_c" "abbc" = false
  /\ like "a_c" "ac" = false /\ like "a%c" "abbc" = true
  /\ like "a%c" "ac" = true.
Proof. splits; reflexivity. Qed.

Example pattern_ends_at_nul :
  list_or_search_recipes (Some (String zero "zzz")) None demo_db_two
  = list_or_search_recipes None None demo_db_two.
Proof. reflexivity. Qed.

Example search_is_case_insensitive_on_title :
  list_or_search_recipes (Some "tomato"%string) None demo_db
  = Ok 200 [RecipeRead_from_orm tomato_soup].
Proof. reflexivity. Qed.

Example category_is_case_sensitive :
  list_or_search_recipes None (Some "Dessert"%string) demo_db
  = Ok 200 [RecipeRead_from_orm tomato_soup]
  /\ list_or_search_recipes None (Some "dessert"%string) demo_db = Ok 200 [].
Proof. split; reflexivity. Qed.

Example newest_first :
  let db := snd (create_recipe
                   (mkRecipeCreate "Tomato Salad" None None None None None) 3
                   demo_db) in
  list_or_search_recipes (Some "TOMATO"%string) None db
  = Ok 200 [mkRecipeRead "Tomato Salad" None None None None None 2;
            RecipeRead_from_orm tomato_soup].
Proof. reflexivity. Qed.

(** C10: an empty query text, or an empty category, applies no filter: the
    answer is the one for the absent parameter, and with both parameters
    empty or absent the answer lists every stored recipe, each once. *)
Theorem empty_parameter_is_absent q category db :
  list_or_search_recipes (Some ""%string) category db
  = list_or_search_recipes None category db
  /\ list_or_search_recipes q (Some ""%string) db
     = list_or_search_recipes q None db
  /\ (forall q' category',
         In q' [None; Some ""%string] ->
         In category' [None; Some ""%string] ->
         list_or_search_recipes q' category' db
         = Ok 200 (map RecipeRead_from_orm (order_by_id_desc (recipes db)))
         /\ Permutation (order_by_id_desc (recipes db)) (recipes db)).
Proof.
  splits; try reflexivity.
  intros q' category' Hq Hc. split; [|apply order_by_id_desc_perm].
  simpl in Hq, Hc.
  destruct Hq as [<-|[<-|[]]], Hc as [<-|[<-|[]]]; reflexivity.
Qed.

(** * Further properties of the handlers *)

(** ** Invariants of the reachable states *)

(** X1: the keys of the schema hold in every state the application reaches
    from the empty tables, whatever requests it serves: user ids, usernames
    and recipe ids are unique and no row of the join table is repeated; each
    single request keeps these four properties. *)
Theorem reachable_state_consistent (ctx : CryptContext) :
  (forall req db, consistent db -> consistent (serve ctx req db))
  /\ (forall reqs, consistent (run ctx reqs init_db)).
Proof.
  split.
  - intros req db. apply serve_consistent.
  - intros reqs. apply run_consistent, init_db_consistent.
Qed.

(** Rows of the join table that point at stored rows. *)
Lemma resolves_user_kept ctx req db user_id :
  resolves_user db user_id -> resolves_user (serve ctx req db) user_id.
Proof.
  intros (u & Hu & E). destruct (serve_rows_kept ctx req db) as (nu & nr & Eu & _).
  exists u. rewrite Eu. split; [apply in_or_app; now left | exact E].
Qed.

Lemma resolves_recipe_kept ctx req db recipe_id :
  resolves_recipe db recipe_id -> resolves_recipe (serve ctx req db) recipe_id.
Proof.
  intros (r & Hr & E). destruct (serve_rows_kept ctx req db) as (nu & nr & _ & Er).
  exists r. rewrite Er. split; [apply in_or_app; now left | exact E].
Qed.

Lemma serve_favorites ctx req db :
  favorites (serve ctx req db) = favorites db
  \/ (exists recipe_id user_id,
         resolves_user db user_id /\ resolves_recipe db recipe_id
         /\ favorites (serve ctx req db) = favorites db ++ [(user_id, recipe_id)])
  \/ (exists recipe_id user_id,
         favorites (serve ctx req db)
         = delete_favorite user_id recipe_id (favorites db)).
Proof.
  destruct req as [| | |recipe now|user salt now| |rid uid|rid uid|]; simpl;
    try now left.
  - left. unfold register_user. now destruct (first _ (users db)).
  - by_cases (add_to_favorites_cases db rid uid); try now left.
    right. left. exists rid, uid. auto.
  - by_cases (remove_from_favorites_cases db rid uid); try now left.
    right. right. now exists rid, uid.
Qed.

(** X2: no request leaves a dangling favorite: in every state reached from
    the empty tables, each row of the join table names a stored user and a
    stored recipe; and each single request keeps that property. *)
Theorem favorites_reference_stored_rows (ctx : CryptContext) :
  let referenced db :=
    Forall (fun f => resolves_user db (fst f) /\ resolves_recipe db (snd f))
           (favorites db) in
  (forall req db, referenced db -> referenced (serve ctx req db))
  /\ (forall reqs, referenced (run ctx reqs init_db)).
Proof.
  cbv zeta.
  assert (Hstep : forall req db,
             Forall (fun f => resolves_user db (fst f) /\ resolves_recipe db (snd f))
                    (favorites db) ->
             Forall (fun f => resolves_user (serve ctx req db) (fst f)
                              /\ resolves_recipe (serve ctx req db) (snd f))
                    (favorites (serve ctx req db))).
  { intros req db H.
    assert (Hold : Forall (fun f => resolves_user (serve ctx req db) (fst f)
                                    /\ resolves_recipe (serve ctx req db) (snd f))
                          (favorites db)).
    { eapply Forall_impl; [|exact H]. intros f [Hu Hr].
      split; [now apply resolves_user_kept | now apply resolves_recipe_kept]. }
    destruct (serve_favorites ctx req db)
      as [E|[(rid & uid & Ru & Rr & E)|(rid & uid & E)]]; rewrite E.
    - exact Hold.
    - apply Forall_app. split; [exact Hold|]. constructor; [|constructor].
      split; [now apply resolves_user_kept | now apply resolves_recipe_kept].
    - rewrite Forall_forall in *. intros f Hf.
      apply in_delete_favorite in Hf. apply Hold. tauto. }
  split; [exact Hstep|].
  intros reqs. unfold run.
  assert (H0 : Forall (fun f => resolves_user init_db (fst f)
                                /\ resolves_recipe init_db (snd f))
                      (favorites init_db)) by constructor.
  revert H0. generalize init_db.
  induction reqs as [|req reqs IH]; simpl; intros db H; [exact H|].
  apply IH. now apply Hstep.
Qed.

(** ** Identifiers are handed out in sequence *)

Lemma fold_left_max_le (l : list Z) (a m : Z) :
  a <= m -> (forall i, In i l -> i <= m) -> fold_left Z.max l a <= m.
Proof.
  revert a. induction l as [|x l IH]; simpl; intros a Ha Hl; [exact Ha|].
  apply IH; [|intros i Hi; apply Hl; now right].
  specialize (Hl x (or_introl eq_refl)). lia.
Qed.

Lemma next_id_after_largest (l : list Z) (m : Z) :
  (forall i, In i l -> i <= m) -> next_id (l ++ [m]) = m + 1.
Proof.
  intros Hl. destruct l as [|a l]; simpl; [reflexivity|].
  rewrite fold_left_app. simpl.
  assert (fold_left Z.max l a <= m).
  { apply fold_left_max_le; [apply Hl; now left|].
    intros i Hi. apply Hl. now right. }
  lia.
Qed.

Lemma next_id_of_sequence (n : nat) :
  next_id (map Z.of_nat (seq 1 n)) = Z.of_nat (S n).
Proof.
  destruct n as [|n]; [reflexivity|].
  rewrite seq_S, map_app. simpl map at 2.
  rewrite next_id_after_largest; [lia|].
  intros i Hi. apply in_map_iff in Hi. destruct Hi as (k & <- & Hk).
  apply in_seq in Hk. lia.
Qed.

Lemma sequence_extended (ids : list Z) :
  ids = map Z.of_nat (seq 1 (List.length ids)) ->
  ids ++ [next_id ids]
  = map Z.of_nat (seq 1 (List.length (ids ++ [next_id ids]))).
Proof.
  intros E. rewrite length_app. simpl List.length.
  replace (List.length ids + 1)%nat with (S (List.length ids)) by lia.
  rewrite seq_S, map_app, <- E.
  assert (N : next_id ids = Z.of_nat (S (List.length ids)))
    by (rewrite E at 1; apply next_id_of_sequence).
  rewrite N. reflexivity.
Qed.

(** X3: identifiers are handed out in sequence: in every state reached from
    the empty tables the stored users carry the ids 1, 2, ..., n in the
    order of their registration, and the stored recipes the ids 1, 2, ...,
    m in the order of their creation. *)
Theorem ids_are_consecutive (ctx : CryptContext) (reqs : list Request) :
  let db := run ctx reqs init_db in
  map User.id (users db) = map Z.of_nat (seq 1 (List.length (users db)))
  /\ map Recipe.id (recipes db)
     = map Z.of_nat (seq 1 (List.length (recipes db))).
Proof.
  cbv zeta. unfold run.
  assert (H0 : map User.id (users init_db)
               = map Z.of_nat (seq 1 (List.length (users init_db)))
               /\ map Recipe.id (recipes init_db)
                  = map Z.of_nat (seq 1 (List.length (recipes init_db))))
    by (split; reflexivity).
  revert H0. generalize init_db.
  induction reqs as [|req reqs IH]; simpl; intros db H; [exact H|].
  apply IH. clear IH. destruct H as [Hu Hr].
  rewrite <- (length_map User.id), <- (length_map Recipe.id) in *.
  destruct req as [| | |recipe now|user salt now| |rid uid|rid uid|]; simpl;
    try (split; assumption).
  - split; [assumption|]. rewrite map_app. simpl.
    now apply sequence_extended.
  - unfold register_user. destruct (first _ (users db)); simpl;
      [split; assumption|].
    split; [|assumption]. rewrite map_app. simpl.
    now apply sequence_extended.
  - by_cases (add_to_favorites_cases db rid uid); split; assumption.
  - by_cases (remove_from_favorites_cases db rid uid); split; assumption.
Qed.

(** ** What list-favorites shows *)

Lemma get_favorites_of_stored_user db (user : User.t) :
  NoDup (map User.id (users db)) -> In user (users db) ->
  get_favorites (User.id user) db
  = Ok 200 (map RecipeRead_from_orm (user_favorites db user)).
Proof.
  intros Hnd Hin. unfold get_favorites.
  now rewrite (first_by_id_resolved _ _ _ _
                 (first_unique User.id Z.eqb (users db) user Z.eqb_eq Hnd Hin)).
Qed.

(** X4: a favorite that was added is listed: in a consistent state, for a
    stored user and a stored recipe that is no favorite of the user yet,
    list-favorites after add-favorite answers the list it answered before
    with that recipe appended. *)
Theorem get_favorites_after_add db (user : User.t) (recipe : Recipe.t) :
  consistent db -> In user (users db) -> In recipe (recipes db) ->
  ~ is_favorite db (User.id user) (Recipe.id recipe) ->
  get_favorites (User.id user) db
  = Ok 200 (map RecipeRead_from_orm (user_favorites db user))
  /\ get_favorites (User.id user)
       (snd (add_to_favorites (Recipe.id recipe) (User.id user) db))
     = Ok 200 (map RecipeRead_from_orm (user_favorites db user)
               ++ [RecipeRead_from_orm recipe]).
Proof.
  intros Hc Hu Hr Hn.
  split; [apply get_favorites_of_stored_user; [apply Hc | exact Hu]|].
  destruct (add_to_favorites_cases db (Recipe.id recipe) (User.id user))
    as [[[N|N] _]|[(_ & _ & Hf & _)|(_ & _ & _ & E)]].
  - exfalso. apply N. now exists user.
  - exfalso. apply N. now exists recipe.
  - contradiction.
  - rewrite E. simpl.
    rewrite get_favorites_of_stored_user; [|apply Hc | exact Hu].
    rewrite (user_favorites_joined db user)
      by (apply Hc).
    rewrite user_favorites_joined; simpl;
      [| apply Hc | apply NoDup_snoc; [apply Hc | exact Hn]].
    rewrite (joined_favorites_append db _ user (User.id user) (Recipe.id recipe))
      by reflexivity.
    rewrite Z.eqb_refl, map_app.
    now rewrite (filter_unique Recipe.id _ recipe (recipe_ids_unique db Hc) Hr).
Qed.

Lemma get_favorites_after_add_witness :
  get_favorites 1 demo_db = Ok 200 []
  /\ get_favorites 1 (snd (add_to_favorites 1 1 demo_db))
     = Ok 200 [RecipeRead_from_orm tomato_soup].
Proof.
  apply (get_favorites_after_add demo_db alice tomato_soup demo_db_consistent).
  - simpl. auto.
  - simpl. auto.
  - intros [].
Defined.

(** X5: a favorite that was removed is not listed: in any state, after a
    remove-favorite that did not fail, list-favorites for the same user
    answers a list in which no recipe has the removed recipe id. *)
Theorem removed_recipe_not_listed db recipe_id user_id :
  is_error (fst (remove_from_favorites recipe_id user_id db)) = false ->
  exists body,
    get_favorites user_id (snd (remove_from_favorites recipe_id user_id db))
    = Ok 200 body
    /\ forall x, In x body -> rr_id x <> recipe_id.
Proof.
  intros Hok.
  assert (Hafter : resolves_user db user_id
                   /\ users (snd (remove_from_favorites recipe_id user_id db))
                      = users db
                   /\ ~ is_favorite
                         (snd (remove_from_favorites recipe_id user_id db))
                         user_id recipe_id).
  { by_cases (remove_from_favorites_cases db recipe_id user_id).
    - now rewrite lookup_failure_is_error in Hok.
    - splits; trivial. unfold is_favorite. simpl.
      rewrite in_delete_favorite. tauto.
    - splits; trivial.
    - discriminate. }
  destruct Hafter as (Ru & Eus & Hn).
  set (db' := snd (remove_from_favorites recipe_id user_id db)) in *.
  destruct (get_favorites_cases db' user_id) as [(u & Hin & Eu & ->)|[N _]].
  - eexists. split; [reflexivity|]. intros x Hx Hid.
    apply in_map_iff in Hx. destruct Hx as (r & <- & Hr). simpl in Hid.
    apply in_user_favorites in Hr. destruct Hr as [Hf _].
    apply Hn. now rewrite <- Eu, <- Hid.
  - exfalso. apply N. destruct Ru as (u & Hu & E). exists u.
    now rewrite Eus.
Qed.

Lemma removed_recipe_not_listed_witness :
  exists body,
    get_favorites 1 (snd (remove_from_favorites 1 1 demo_db_two)) = Ok 200 body
    /\ forall x, In x body -> rr_id x <> 1.
Proof.
  exact (removed_recipe_not_listed demo_db_two 1 1 eq_refl).
Defined.

Example removed_recipe_not_listed_on_two_favorites :
  get_favorites 1 (snd (remove_from_favorites 1 1 demo_db_two))
  = Ok 200 [RecipeRead_from_orm tomato_salad].
Proof. reflexivity. Qed.

(** A pair held by two rows cannot be removed: the DELETE matches two rows,
    the flush raises and the state stays as it was. *)
Example remove_from_repeated_pair :
  remove_from_favorites 1 1
    {| users := [alice]; recipes := [tomato_soup];
       favorites := [(1, 1); (1, 1)] |}
  = (Unhandled "StaleDataError",
     {| users := [alice]; recipes := [tomato_soup];
        favorites := [(1, 1); (1, 1)] |})
  /\ get_favorites 1
       {| users := [alice]; recipes := [tomato_soup];
          favorites := [(1, 1); (1, 1)] |}
     = Ok 200 [RecipeRead_from_orm tomato_soup].
Proof. split; reflexivity. Qed.

(** X6: list-favorites shows stored favorites, each once: in a consistent
    state every recipe of the answered list is the representation of a
    stored recipe that is a favorite of the user, and no two recipes of the
    list have the same id. *)
Theorem get_favorites_lists_favorites_once db user_id body :
  consistent db ->
  get_favorites user_id db = Ok 200 body ->
  NoDup (map rr_id body)
  /\ (forall x, In x body ->
                exists r, In r (recipes db) /\ x = RecipeRead_from_orm r
                          /\ is_favorite db user_id (Recipe.id r)).
Proof.
  intros Hc.
  destruct (get_favorites_cases db user_id) as [(user & _ & Huid & ->)|[_ ->]];
    [|destruct (in_int64 user_id); discriminate].
  intros [= <-]. split.
  - rewrite map_map. simpl. apply (user_favorites_ids_unique db user).
  - intros x Hx. apply in_map_iff in Hx. destruct Hx as (r & <- & Hr).
    apply in_user_favorites in Hr. exists r. rewrite <- Huid. tauto.
Qed.

Lemma get_favorites_lists_favorites_once_witness :
  NoDup (map rr_id [RecipeRead_from_orm tomato_soup])
  /\ (forall x, In x [RecipeRead_from_orm tomato_soup] ->
                exists r, In r (recipes demo_db_fav)
                          /\ x = RecipeRead_from_orm r
                          /\ is_favorite demo_db_fav 1 (Recipe.id r)).
Proof.
  exact (get_favorites_lists_favorites_once demo_db_fav 1
           [RecipeRead_from_orm tomato_soup] demo_db_fav_consistent eq_refl).
Defined.

(** ** How add and remove compose *)

Lemma with_favorites_same db : with_favorites db (favorites db) = db.
Proof. now destruct db. Qed.

(** X7: remove undoes add: for a stored user and a stored recipe that is no
    favorite of the user, add-favorite followed by remove-favorite answers
    "Recipe removed from favorites" and gives back the state before the
    add, join table included. *)
Theorem add_then_remove_restores db user_id recipe_id :
  resolves_user db user_id -> resolves_recipe db recipe_id ->
  ~ is_favorite db user_id recipe_id ->
  remove_from_favorites recipe_id user_id
    (snd (add_to_favorites recipe_id user_id db))
  = (Ok 200 {| message := "Recipe removed from favorites" |}, db).
Proof.
  intros Ru Rr Hn.
  destruct (add_to_favorites_cases db recipe_id user_id)
    as [[[N|N] _]|[(_ & _ & Hf & _)|(_ & _ & _ & E)]]; try contradiction.
  rewrite E. simpl.
  set (db1 := with_favorites db (favorites db ++ [(user_id, recipe_id)])).
  assert (Hf1 : is_favorite db1 user_id recipe_id).
  { unfold is_favorite. simpl. apply in_or_app. right. now left. }
  assert (Hc1 : occurrences db1 user_id recipe_id = 1%nat).
  { unfold occurrences. simpl. rewrite count_occ_app. simpl.
    destruct (pair_eq_dec (user_id, recipe_id) (user_id, recipe_id));
      [|congruence].
    rewrite (proj1 (count_occ_not_In pair_eq_dec _ _) Hn). reflexivity. }
  destruct (remove_from_favorites_cases db1 recipe_id user_id)
    as [[[N|N] _]|[(_ & _ & _ & E1)
                  |[(_ & _ & Hn1 & _)|(_ & _ & [_ Hm] & _)]]];
    try contradiction; [|lia].
  rewrite E1. f_equal. subst db1. unfold with_favorites. simpl.
  unfold delete_favorite at 1. rewrite filter_app.
  fold (delete_favorite user_id recipe_id (favorites db)).
  rewrite delete_favorite_absent by exact Hn.
  simpl. rewrite !Z.eqb_refl. simpl. rewrite app_nil_r.
  apply with_favorites_same.
Qed.

Lemma add_then_remove_restores_witness :
  remove_from_favorites 1 1 (snd (add_to_favorites 1 1 demo_db))
  = (Ok 200 {| message := "Recipe removed from favorites" |}, demo_db).
Proof.
  apply (add_then_remove_restores demo_db 1 1
           demo_resolves_user demo_resolves_recipe).
  intros [].
Defined.

(** X8: a repeated remove changes nothing: after any remove-favorite, the
    same call again leaves the state as the first call left it; it raises
    the same exception if the first call raised, and answers "Recipe not in
    favorites" otherwise. *)
Theorem remove_from_favorites_twice db recipe_id user_id :
  let once := remove_from_favorites recipe_id user_id db in
  remove_from_favorites recipe_id user_id (snd once)
  = (if is_error (fst once) then fst once
     else Ok 200 {| message := "Recipe not in favorites" |},
     snd once).
Proof.
  cbv zeta.
  destruct (remove_from_favorites_cases db recipe_id user_id)
    as [[_ E]|[(Ru & Rr & _ & E)|[(_ & _ & _ & E)|(_ & _ & _ & E)]]];
    rewrite E; simpl.
  - now rewrite lookup_failure_is_error.
  - set (db1 := with_favorites db
                  (delete_favorite user_id recipe_id (favorites db))).
    assert (Hn1 : ~ is_favorite db1 user_id recipe_id).
    { unfold is_favorite. simpl. rewrite in_delete_favorite. tauto. }
    destruct (remove_from_favorites_cases db1 recipe_id user_id)
      as [[[N|N] _]|[(_ & _ & [Hf1 _] & _)
                    |[(_ & _ & _ & E1)|(_ & _ & [Hf1 _] & _)]]];
      try contradiction; exact E1.
  - exact E.
  - exact E.
Qed.

(** ** Accounts: how register and login compose *)

Lemma first_after_register ctx user salt now db :
  exists stored,
    first (fun u => String.eqb (User.username u) (uc_username user))
          (users (snd (register_user ctx user salt now db)))
    = Some stored
    /\ (~ username_taken db (uc_username user) ->
        User.hashed_password stored
        = get_password_hash ctx (uc_password user) salt).
Proof.
  unfold register_user.
  destruct (first _ (users db)) as [u|] eqn:E; simpl.
  - exists u. split; [exact E|]. intros N.
    apply first_username_None in N. congruence.
  - eexists. split.
    + apply first_appended.
      * now apply first_None_iff.
      * simpl. apply String.eqb_refl.
    + reflexivity.
Qed.



(** X10: a username is registered once: whatever the state, after a
    register call a second register call with the same username, whatever
    its password, raises status 400 "Username already registered" and leaves
    the state as the first call left it. *)
Theorem register_same_username_again ctx user1 salt1 now1 user2 salt2 now2 db :
  uc_username user2 = uc_username user1 ->
  let db1 := snd (register_user ctx user1 salt1 now1 db) in
  register_user ctx user2 salt2 now2 db1
  = (HTTPException 400 "Username already registered", db1).
Proof.
  intros Hname. cbv zeta.
  destruct (first_after_register ctx user1 salt1 now1 db) as (stored & E & _).
  unfold register_user at 1. now rewrite Hname, E.
Qed.

Lemma register_same_username_again_witness :
  register_user demo_context (mkUserCreate "alice" "pw2") "t" 1
    (snd (register_user demo_context (mkUserCreate "alice" "pw1") "s" 0 init_db))
  = (HTTPException 400 "Username already registered",
     snd (register_user demo_context (mkUserCreate "alice" "pw1") "s" 0 init_db)).
Proof.
  exact (register_same_username_again demo_context
           (mkUserCreate "alice" "pw1") "s" 0
           (mkUserCreate "alice" "pw2") "t" 1 init_db eq_refl).
Defined.

(** ** Accounts: the demo token *)

Lemma length_of_append (a b : string) :
  String.length (a ++ b)%string = (String.length a + String.length b)%nat.
Proof. induction a as [|c a IH]; simpl; [reflexivity | now rewrite IH]. Qed.

Lemma append_same_suffix (a b suffix : string) :
  (a ++ suffix)%string = (b ++ suffix)%string -> a = b.
Proof.
  revert b. induction a as [|c a IH]; intros [|d b] E; simpl in E.
  - reflexivity.
  - exfalso. apply (f_equal String.length) in E. simpl in E.
    rewrite length_of_append in E. lia.
  - exfalso. apply (f_equal String.length) in E. simpl in E.
    rewrite length_of_append in E. lia.
  - injection E as -> E. f_equal. now apply IH.
Qed.

Lemma login_token ctx username password db token :
  login ctx username password db = Ok 200 token ->
  access_token token = (username ++ "-token-demo")%string.
Proof.
  unfold login, authenticate_user.
  destruct (first _ (users db)) as [user|] eqn:E; [|discriminate].
  destruct (first_Some _ _ _ E) as [_ Hname]. apply String.eqb_eq in Hname.
  destruct (negb _); [discriminate|]. intros [= <-]. simpl. now rewrite Hname.
Qed.

(** X11: the demo token names the user: the token a login answers is the
    given username followed by "-token-demo", so two logins that answer the
    same token, in whatever states and with whatever passwords, were made
    with the same username. *)
Theorem login_token_names_username ctx db1 db2 name1 name2 pw1 pw2 t1 t2 :
  login ctx name1 pw1 db1 = Ok 200 t1 ->
  login ctx name2 pw2 db2 = Ok 200 t2 ->
  access_token t1 = (name1 ++ "-token-demo")%string
  /\ (access_token t1 = access_token t2 -> name1 = name2).
Proof.
  intros L1 L2. apply login_token in L1, L2. split; [exact L1|].
  rewrite L1, L2. apply append_same_suffix.
Qed.

Lemma login_token_names_username_witness :
  access_token {| access_token := "alice-token-demo"; token_type := "bearer" |}
  = "alice-token-demo"%string
  /\ (access_token {| access_token := "alice-token-demo";
                      token_type := "bearer" |}
      = access_token {| access_token := "alice-token-demo";
                        token_type := "bearer" |} ->
      "alice"%string = "alice"%string).
Proof.
  exact (login_token_names_username demo_context demo_db demo_db_fav
           "alice" "alice" "pw1" "pw1" _ _ eq_refl eq_refl).
Defined.

(** ** Recipes: what later requests cannot change *)

Lemma first_app_found {A} (p : A -> bool) (rows more : list A) (x : A) :
  first p rows = Some x -> first p (rows ++ more) = Some x.
Proof.
  unfold first. induction rows as [|y rows IH]; simpl; [discriminate|].
  destruct (p y); [trivial | exact IH].
Qed.

Lemma get_recipe_kept ctx req db recipe_id :
  resolves_recipe db recipe_id ->
  get_recipe recipe_id (serve ctx req db) = get_recipe recipe_id db.
Proof.
  intros Rr. destruct (resolves_recipe_first db recipe_id Rr) as (r & E & _).
  destruct (serve_rows_kept ctx req db) as (nu & nr & _ & Er).
  unfold get_recipe. rewrite Er.
  rewrite (first_by_id_resolved _ _ _ _ E).
  now rewrite (first_by_id_resolved _ _ _ _ (first_app_found _ _ nr r E)).
Qed.

(** X12: a stored recipe is never changed or hidden: once an id resolves to
    a recipe, get-by-id on that id answers the same after any sequence of
    further requests. *)
Theorem get_recipe_is_stable ctx reqs db recipe_id :
  resolves_recipe db recipe_id ->
  get_recipe recipe_id (run ctx reqs db) = get_recipe recipe_id db.
Proof.
  unfold run. revert db. induction reqs as [|req reqs IH]; simpl; intros db Rr.
  - reflexivity.
  - rewrite IH by now apply resolves_recipe_kept.
    now apply get_recipe_kept.
Qed.

Lemma get_recipe_is_stable_witness :
  get_recipe 1
    (run demo_context
       [POST_recipes (mkRecipeCreate "Tomato Soup" None None None None None) 9;
        POST_favorites 1 1; DELETE_favorites 1 1]
       demo_db)
  = get_recipe 1 demo_db.
Proof.
  apply (get_recipe_is_stable demo_context _ demo_db 1 demo_resolves_recipe).
Defined.

Lemma get_recipe_of_stored_row db (r : Recipe.t) :
  NoDup (map Recipe.id (recipes db)) -> In r (recipes db) ->
  get_recipe (Recipe.id r) db = Ok 200 (RecipeRead_from_orm r).
Proof.
  intros Hnd Hin. unfold get_recipe.
  now rewrite (first_by_id_resolved _ _ _ _
                 (first_unique Recipe.id Z.eqb (recipes db) r Z.eqb_eq Hnd Hin)).
Qed.

(** X13: what a listing shows can be fetched: when recipe ids are unique,
    every recipe in the answer of list-or-search, and every recipe in the
    answer of list-favorites, is answered unchanged by get-by-id on its
    id. *)
Theorem listed_recipe_can_be_fetched db :
  NoDup (map Recipe.id (recipes db)) ->
  (forall q category body x,
      list_or_search_recipes q category db = Ok 200 body -> In x body ->
      get_recipe (rr_id x) db = Ok 200 x)
  /\ (forall user_id body x,
         get_favorites user_id db = Ok 200 body -> In x body ->
         get_recipe (rr_id x) db = Ok 200 x).
Proof.
  intros Hnd. split.
  - intros q category body x L.
    apply list_or_search_recipes_answer in L. destruct L as [_ ->].
    intros Hx. apply in_map_iff in Hx. destruct Hx as (r & <- & Hr).
    apply (Permutation_in _ (order_by_id_desc_perm _)) in Hr.
    apply filter_In in Hr. now apply get_recipe_of_stored_row.
  - intros user_id body x.
    destruct (get_favorites_cases db user_id) as [(user & _ & _ & ->)|[_ ->]];
      [|destruct (in_int64 user_id); discriminate].
    intros [= <-] Hx. apply in_map_iff in Hx. destruct Hx as (r & <- & Hr).
    apply in_user_favorites in Hr. now apply get_recipe_of_stored_row.
Qed.

Lemma listed_recipe_can_be_fetched_witness :
  get_recipe 2 demo_db_two = Ok 200 (RecipeRead_from_orm tomato_salad)
  /\ get_recipe 1 demo_db_two = Ok 200 (RecipeRead_from_orm tomato_soup).
Proof.
  assert (Hnd : NoDup (map Recipe.id (recipes demo_db_two)))
    by (simpl; repeat constructor; simpl; intuition discriminate).
  destruct (listed_recipe_can_be_fetched demo_db_two Hnd) as [Hs Hf].
  split.
  - apply (Hs (Some "salad"%string) None
              [RecipeRead_from_orm tomato_salad]
              (RecipeRead_from_orm tomato_salad) eq_refl).
    left. reflexivity.
  - apply (Hf 1 [RecipeRead_from_orm tomato_soup;
                 RecipeRead_from_orm tomato_salad]
              (RecipeRead_from_orm tomato_soup) eq_refl).
    left. reflexivity.
Defined.

(** ** Recipes: a created recipe in the listing *)

Lemma order_by_id_desc_newest (l : list Recipe.t) (x : Recipe.t) :
  (forall y, In y l -> Recipe.id y < Recipe.id x) ->
  order_by_id_desc (l ++ [x]) = x :: order_by_id_desc l.
Proof.
  induction l as [|a l IH]; simpl; intros Hl; [reflexivity|].
  rewrite IH by (intros y Hy; apply Hl; now right). simpl.
  specialize (Hl a (or_introl eq_refl)).
  destruct (Recipe.id x <=? Recipe.id a) eqn:E; [|reflexivity].
  apply Z.leb_le in E. lia.
Qed.

(** X14: a created recipe heads the listing: after create, list-or-search
    with a non-empty query text whose pattern is longer than the LIKE limit
    fails, the table being no longer empty; with any other parameters it
    answers what it answered before, with the created recipe put in front
    when the selection keeps it (always, when no filter applies) and
    unchanged otherwise. *)
Theorem created_recipe_is_listed_first recipe now db q category :
  exists row,
    recipes (snd (create_recipe recipe now db)) = recipes db ++ [row]
    /\ Recipe.title row = rc_title recipe
    /\ Recipe.category row = rc_category recipe
    /\ fst (create_recipe recipe now db) = Ok 201 (RecipeRead_from_orm row)
    /\ ((exists s, q = Some s /\ s <> EmptyString
                   /\ 50000 < utf8_length ("%" ++ s ++ "%")) ->
        list_or_search_recipes q category (snd (create_recipe recipe now db))
        = Unhandled "OperationalError")
    /\ (~ (exists s, q = Some s /\ s <> EmptyString
                     /\ 50000 < utf8_length ("%" ++ s ++ "%")) ->
        exists old,
          list_or_search_recipes q category db = Ok 200 old
          /\ list_or_search_recipes q category
               (snd (create_recipe recipe now db))
             = Ok 200 (if selected q category row
                       then RecipeRead_from_orm row :: old
                       else old))
    /\ (truthy q = false -> truthy category = false ->
        selected q category row = true).
Proof.
  eexists. splits; try reflexivity.
  - intros (s & Eq & Hs & L).
    rewrite list_or_search_recipes_selected.
    rewrite (proj2 (like_raises_iff q _)); [reflexivity|].
    exists s. splits; trivial. simpl. now destruct (recipes db).
  - intros Hshort.
    assert (R : forall rows, like_raises q rows = false).
    { intros rows. destruct (like_raises q rows) eqn:R; [|reflexivity].
      exfalso. apply Hshort. apply like_raises_iff in R.
      destruct R as (s & Eq & Hs & L & _). now exists s. }
    exists (map RecipeRead_from_orm
              (order_by_id_desc (filter (selected q category) (recipes db)))).
    rewrite !list_or_search_recipes_selected, !R. split; [reflexivity|].
    simpl recipes. rewrite filter_app. simpl filter at 2.
    match goal with |- context [selected q category ?row] =>
      destruct (selected q category row) eqn:E
    end.
    + rewrite order_by_id_desc_newest; [reflexivity|].
      intros y Hy. apply filter_In in Hy. destruct Hy as [Hy _]. simpl.
      apply next_id_fresh. now apply in_map.
    + now rewrite app_nil_r.
  - intros Hq Hc. unfold selected.
    destruct q as [s|], category as [c|]; simpl in *;
      rewrite ?Hq, ?Hc; reflexivity.
Qed.

Example created_recipe_found_by_its_title :
  list_or_search_recipes (Some "SALAD"%string) None
    (snd (create_recipe
            (mkRecipeCreate "Tomato Salad" None None None None None) 3
            demo_db))
  = Ok 200 [mkRecipeRead "Tomato Salad" None None None None None 2].
Proof. reflexivity. Qed.

(** ** Search: the case of the query text *)

Lemma sql_lower_empty s : sql_lower s = EmptyString <-> s = EmptyString.
Proof. destruct s; simpl; split; congruence. Qed.

(** X15: the search ignores the case of the query text: two query texts
    that agree up to the case of the letters A to Z give the same answer,
    with any category, in any state. *)
Theorem search_ignores_case_of_query q1 q2 category db :
  sql_lower q1 = sql_lower q2 ->
  list_or_search_recipes (Some q1) category db
  = list_or_search_recipes (Some q2) category db.
Proof.
  intros E. unfold list_or_search_recipes.
  assert (T : truthy (Some q1) = truthy (Some q2)).
  { destruct q1, q2; simpl in *; trivial; discriminate. }
  assert (L : like_raises (Some q1) (recipes db)
              = like_raises (Some q2) (recipes db)).
  { unfold like_raises, like_pattern_too_long. rewrite T.
    change ("%" ++ q1 ++ "%")%string with (String "%" (q1 ++ "%")%string).
    change ("%" ++ q2 ++ "%")%string with (String "%" (q2 ++ "%")%string).
    simpl sql_lower. now rewrite !sql_lower_app, E. }
  assert (F : filter_if (Some q1) title_ilike (recipes db)
              = filter_if (Some q2) title_ilike (recipes db)).
  { unfold filter_if. rewrite T. destruct (truthy (Some q2)); [|reflexivity].
    apply filter_ext. intros r. unfold title_ilike, ilike.
    change ("%" ++ q1 ++ "%")%string with (String "%" (q1 ++ "%")%string).
    change ("%" ++ q2 ++ "%")%string with (String "%" (q2 ++ "%")%string).
    simpl sql_lower. now rewrite !sql_lower_app, E. }
  now rewrite L, F.
Qed.

Lemma search_ignores_case_of_query_witness :
  list_or_search_recipes (Some "TOMATO"%string) None demo_db_two
  = list_or_search_recipes (Some "tomato"%string) None demo_db_two.
Proof.
  exact (search_ignores_case_of_query "TOMATO" "tomato" None demo_db_two
           eq_refl).
Defined.
